(** * Banner maker: grid composition, info band and colour parsing

    A shallow embedding of the core of [final.py]: the colour parser
    ([hex_to_rgb], [cmyk_to_rgb], [parse_color_input]), the grid layout and
    the compositing pipeline of [merge_images], and the band splice of
    [add_info_band].

    Conventions of the embedding.
    - Python [str] values are Rocq strings whose characters are the code
      points below 256.
    - Python [int] is [Z]; Python [float] is IEEE-754 binary64, taken from
      the Standard Library's [SpecFloat] at precision 53 and [emax] 1024
      (round to nearest, ties to even).  Where the source goes through a
      double to reach an integer ([math.ceil], [int]), the layout uses the
      exact integer function and a lemma shows that the double computation
      returns it.
    - A raised exception is the [Raise] alternative of [result]; a
      [try ... except] is a match on it.
    - The imaging library (Pillow) is outside the repository: rasters are a
      size with a pixel for every coordinate, and what Pillow computes inside
      a pixel (blending, resampling, glyph drawing, decoding) is a parameter
      of the section that uses it. *)

From Stdlib Require Import ZArith List String Ascii Bool Lia.
From Stdlib Require Import Floats.SpecFloat.
Import ListNotations.

Open Scope string_scope.
Open Scope Z_scope.

(** ** Exceptions *)

Inductive exn : Type :=
| ValueError
| IndexError
| OverflowError.

Inductive result (A : Type) : Type :=
| Ok (a : A)
| Raise (e : exn).

Arguments Ok {A} a.
Arguments Raise {A} e.

Definition bind {A B : Type} (m : result A) (k : A -> result B) : result B :=
  match m with
  | Ok a => k a
  | Raise e => Raise e
  end.

Notation "x <- m ;; k" := (bind m (fun x => k))
  (at level 61, m at next level, right associativity).

Fixpoint mapM {A B : Type} (f : A -> result B) (l : list A) : result (list B) :=
  match l with
  | [] => Ok []
  | a :: l' => b <- f a ;; bs <- mapM f l' ;; Ok (b :: bs)
  end.

(** [raises_only e0 r]: if [r] is an exception, it is [e0]. *)
Definition raises_only {A : Type} (e0 : exn) (r : result A) : Prop :=
  forall e, r = Raise e -> e = e0.

(** ** Python strings *)

Module PyStr.

Definition code (c : ascii) : Z := Z.of_N (N_of_ascii c).

Definition between (lo hi : Z) (c : ascii) : bool :=
  (lo <=? code c) && (code c <=? hi).

(** [str.isspace] on one character: the characters [str.strip] removes. *)
Definition isspace (c : ascii) : bool :=
  between 9 13 c || between 28 32 c
  || (code c =? 133) || (code c =? 160).

(** [str.lower] on one character. *)
Definition lower_char (c : ascii) : ascii :=
  if between 65 90 c
     || (between 192 222 c && negb (code c =? 215))
  then ascii_of_N (N_of_ascii c + 32)
  else c.

Fixpoint lower (s : string) : string :=
  match s with
  | EmptyString => EmptyString
  | String c s' => String (lower_char c) (lower s')
  end.

Fixpoint lstrip_if (p : ascii -> bool) (s : string) : string :=
  match s with
  | EmptyString => EmptyString
  | String c s' => if p c then lstrip_if p s' else s
  end.

(** Strips from the right: a character goes when all that follows it went
    and it satisfies [p]. *)
Fixpoint rstrip_if (p : ascii -> bool) (s : string) : string :=
  match s with
  | EmptyString => EmptyString
  | String c s' =>
      match rstrip_if p s' with
      | EmptyString => if p c then EmptyString else String c EmptyString
      | t => String c t
      end
  end.

Definition strip_if (p : ascii -> bool) (s : string) : string :=
  rstrip_if p (lstrip_if p s).

(** [s.strip()] *)
Definition strip (s : string) : string := strip_if isspace s.

(** [s.lstrip('#')] *)
Definition lstrip_char (ch : ascii) (s : string) : string :=
  lstrip_if (Ascii.eqb ch) s.

Fixpoint startswith (p s : string) : bool :=
  match p, s with
  | EmptyString, _ => true
  | String a p', String b s' => Ascii.eqb a b && startswith p' s'
  | String _ _, EmptyString => false
  end.

Fixpoint drop (n : nat) (s : string) : string :=
  match n, s with
  | O, _ => s
  | S n', String _ s' => drop n' s'
  | S _, EmptyString => EmptyString
  end.

Fixpoint take (n : nat) (s : string) : string :=
  match n, s with
  | S n', String c s' => String c (take n' s')
  | _, _ => EmptyString
  end.

(** [s.endswith(p)] *)
Definition endswith (p s : string) : bool :=
  (length p <=? length s)%nat
  && String.eqb (drop (length s - length p) s) p.

(** [s[i:j]] for literal [0 <= i <= j] *)
Definition slice (i j : nat) (s : string) : string :=
  take (j - i) (drop i s).

(** [s[:-1]] *)
Fixpoint drop_last (s : string) : string :=
  match s with
  | EmptyString => EmptyString
  | String c EmptyString => EmptyString
  | String c s' => String c (drop_last s')
  end.

(** [s[i:-1]] *)
Definition slice_to_last (i : nat) (s : string) : string :=
  drop_last (drop i s).

(** [ch in s] for a one-character [ch] *)
Fixpoint contains (ch : ascii) (s : string) : bool :=
  match s with
  | EmptyString => false
  | String c s' => Ascii.eqb ch c || contains ch s'
  end.

Fixpoint all_chars (p : ascii -> bool) (s : string) : bool :=
  match s with
  | EmptyString => true
  | String c s' => p c && all_chars p s'
  end.

(** [s.split(sep)] for a one-character separator: never the empty list. *)
Fixpoint split (sep : ascii) (s : string) : list string :=
  match s with
  | EmptyString => [EmptyString]
  | String c s' =>
      if Ascii.eqb c sep then EmptyString :: split sep s'
      else match split sep s' with
           | [] => [String c EmptyString]
           | f :: fs => String c f :: fs
           end
  end.

End PyStr.

(** ** Python numbers: [int(str)], [float(str)], binary64 arithmetic *)

Module PyNum.
Import PyStr.

Definition float := spec_float.

Definition prec : Z := 53.
Definition emax : Z := 1024.

Definition fmul : float -> float -> float := SFmul prec emax.
Definition fdiv : float -> float -> float := SFdiv prec emax.
Definition fsub : float -> float -> float := SFsub prec emax.
Definition fsqrt : float -> float := SFsqrt prec emax.
Definition fleb : float -> float -> bool := SFleb.

(** The conversion of an [int] operand in mixed arithmetic. *)
Definition float_of_Z (n : Z) : float := binary_normalize prec emax n 0 false.

(** The mantissa of a finite float has at most 53 bits. *)
Definition mantissa_fits (x : float) : Prop :=
  match x with
  | S754_finite _ m _ => Zdigits2 (Zpos m) <= 53
  | _ => True
  end.

(** [below B x]: [x] is a zero or a finite float of absolute value less
    than [2 ^ B], with a mantissa of at most 53 bits. *)
Definition below (B : Z) (x : float) : Prop :=
  match x with
  | S754_zero _ => True
  | S754_finite _ m e =>
      Zdigits2 (Zpos m) <= 53 /\ Zdigits2 (Zpos m) + e <= B
  | _ => False
  end.

(** [at_most C x]: [x] is a zero, or a finite float of sign plus whose
    value [m * 2 ^ e] is at most the integer [C]. *)
Definition at_most (C : Z) (x : float) : Prop :=
  match x with
  | S754_zero _ => True
  | S754_finite s m e =>
      s = false /\ Zpos m * 2 ^ Z.max e 0 <= C * 2 ^ Z.max (- e) 0
  | _ => False
  end.

(** [int(x)] for a float [x]: truncation toward zero. *)
Definition int_of_float (x : float) : result Z :=
  match x with
  | S754_zero _ => Ok 0
  | S754_infinity _ => Raise OverflowError
  | S754_nan => Raise ValueError
  | S754_finite s m e =>
      let a := match e with
               | Zneg p => Zpos m / 2 ^ Zpos p
               | _ => Zpos m * 2 ^ e
               end in
      Ok (if s then - a else a)
  end.

(** [math.ceil(x)] for a float [x]. *)
Definition ceil_of_float (x : float) : result Z :=
  match x with
  | S754_zero _ => Ok 0
  | S754_infinity _ => Raise OverflowError
  | S754_nan => Raise ValueError
  | S754_finite s m e =>
      match e with
      | Zneg p =>
          Ok (if s then - (Zpos m / 2 ^ Zpos p)
              else - ((- Zpos m) / 2 ^ Zpos p))
      | _ => Ok (if s then - (Zpos m * 2 ^ e) else Zpos m * 2 ^ e)
      end
  end.

(** Value of a digit character in a base up to 36. *)
Definition digit_val (base : Z) (c : ascii) : option Z :=
  let v := if between 48 57 c then code c - 48
           else if between 97 122 c then code c - 87
           else if between 65 90 c then code c - 55
           else 36 in
  if v <? base then Some v else None.

(** A run of digits in which single underscores may separate digits.
    [acc] is the value read so far, [cnt] the number of digits read,
    [after_digit] whether the previous character was a digit. *)
Fixpoint digits_from (base : Z) (s : string) (acc : Z) (cnt : nat)
         (after_digit : bool) : option (Z * nat) :=
  match s with
  | EmptyString => if after_digit then Some (acc, cnt) else None
  | String c s' =>
      if Ascii.eqb c "_"
      then if after_digit then digits_from base s' acc cnt false else None
      else match digit_val base c with
           | Some d => digits_from base s' (acc * base + d) (S cnt) true
           | None => None
           end
  end.

Definition digits (base : Z) (s : string) : option (Z * nat) :=
  digits_from base s 0 O false.

(** The white space [int] and [float] skip around a literal. *)
Definition num_space (c : ascii) : bool :=
  between 9 13 c || (code c =? 32) || (code c =? 133) || (code c =? 160).

Definition split_sign (s : string) : bool * string :=
  match s with
  | String "-" s' => (true, s')
  | String "+" s' => (false, s')
  | _ => (false, s)
  end.

(** [int(s, base)] for base 10 or 16. *)
Definition int_of_string (base : Z) (s : string) : result Z :=
  let '(neg, body) := split_sign (strip_if num_space s) in
  let body :=
    if (base =? 16) && (startswith "0x" body || startswith "0X" body)
    then match drop 2 body with
         | String "_" t => t
         | t => t
         end
    else body in
  match digits base body with
  | Some (v, _) => Ok (if neg then - v else v)
  | None => Raise ValueError
  end.

(** Splits at the first occurrence of [ch]. *)
Fixpoint cut (ch : ascii) (s : string) : string * option string :=
  match s with
  | EmptyString => (EmptyString, None)
  | String c s' =>
      if Ascii.eqb c ch then (EmptyString, Some s')
      else let '(a, b) := cut ch s' in (String c a, b)
  end.

(** An optional run of digits: the empty string reads as zero digits. *)
Definition digits_opt (s : string) : option (Z * nat) :=
  match s with
  | EmptyString => Some (0, O)
  | _ => digits 10 s
  end.

(** The float nearest to [m * 10 ^ e] for [m > 0]: one rounding of the
    exact product or quotient. *)
Definition decimal_to_float (neg : bool) (m : positive) (e : Z) : float :=
  match e with
  | Zneg p =>
      fdiv (S754_finite neg m 0) (S754_finite false (Pos.pow 10 p) 0)
  | _ => binary_normalize prec emax
           ((if neg then Zneg m else Zpos m) * 10 ^ e) 0 false
  end.

(** [float(s)] *)
Definition float_of_string (s : string) : result float :=
  let '(neg, body) := split_sign (lower (strip_if num_space s)) in
  if String.eqb body "inf" || String.eqb body "infinity"
  then Ok (S754_infinity neg)
  else if String.eqb body "nan" then Ok S754_nan
  else
    let '(mant, expo) := cut "e" body in
    let '(ip, fp) := cut "." mant in
    let fp := match fp with Some t => t | None => EmptyString end in
    let ex := match expo with
              | None => Some 0
              | Some t =>
                  let '(eneg, et) := split_sign t in
                  match digits 10 et with
                  | Some (v, _) => Some (if eneg then - v else v)
                  | None => None
                  end
              end in
    match digits_opt ip, digits_opt fp, ex with
    | Some (iv, ic), Some (fv, fc), Some e =>
        if ((ic + fc)%nat =? 0)%nat then Raise ValueError
        else match iv * 10 ^ Z.of_nat fc + fv with
             | Zpos m => Ok (decimal_to_float neg m (e - Z.of_nat fc))
             | _ => Ok (S754_zero neg)
             end
    | _, _, _ => Raise ValueError
    end.

End PyNum.

(** ** Colour parsing *)

Module ColorParser.
Import PyStr PyNum.

(** An RGB tuple as the code builds it: three Python integers. *)
Definition RGB : Type := (Z * Z * Z)%type.

Definition hex_to_rgb (hex_color : string) : result RGB :=
  let hex_color := lstrip_char "#" hex_color in
  r <- int_of_string 16 (slice 0 2 hex_color) ;;
  g <- int_of_string 16 (slice 2 4 hex_color) ;;
  b <- int_of_string 16 (slice 4 6 hex_color) ;;
  Ok (r, g, b).

Definition cmyk_to_rgb (c m y k : float) : result RGB :=
  let hundred := float_of_Z 100 in
  let c := fdiv c hundred in
  let m := fdiv m hundred in
  let y := fdiv y hundred in
  let k := fdiv k hundred in
  let one := float_of_Z 1 in
  let r := fmul (fmul (float_of_Z 255) (fsub one c)) (fsub one k) in
  let g := fmul (fmul (float_of_Z 255) (fsub one m)) (fsub one k) in
  let b := fmul (fmul (float_of_Z 255) (fsub one y)) (fsub one k) in
  ri <- int_of_float r ;;
  gi <- int_of_float g ;;
  bi <- int_of_float b ;;
  Ok (ri, gi, bi).

(** [c in '0123456789abcdef'] *)
Definition is_lower_hex (c : ascii) : bool :=
  contains c "0123456789abcdef".

(** [all(0 <= val <= 255 for val in [r, g, b])] *)
Definition in_byte_range (v : Z) : bool := (0 <=? v) && (v <=? 255).

(** [all(0 <= val <= 100 for val in [c, m, y, k])] *)
Definition in_percent_range (v : float) : bool :=
  fleb (float_of_Z 0) v && fleb v (float_of_Z 100).

(** The body of the two RGB branches once [values] is known. *)
Definition rgb_of_fields (values : list string) : result (option RGB) :=
  if (List.length values =? 3)%nat then
    ints <- mapM (fun v => int_of_string 10 (strip v)) values ;;
    match ints with
    | [r; g; b] =>
        if forallb in_byte_range [r; g; b] then Ok (Some (r, g, b))
        else Ok None
    | _ => Raise ValueError
    end
  else Ok None.

(** The body of the two CMYK branches once [values] is known. *)
Definition cmyk_of_fields (values : list string) : result (option RGB) :=
  if (List.length values =? 4)%nat then
    floats <- mapM (fun v => float_of_string (strip v)) values ;;
    match floats with
    | [c; m; y; k] =>
        if forallb in_percent_range [c; m; y; k]
        then rgb <- cmyk_to_rgb c m y k ;; Ok (Some rgb)
        else Ok None
    | _ => Raise ValueError
    end
  else Ok None.

(** The [if]/[elif] chain inside the [try]. *)
Definition parse_color_branches (color_input : string)
  : result (option RGB) :=
  if startswith "#" color_input
     || ((length color_input =? 6)%nat && all_chars is_lower_hex color_input)
  then rgb <- hex_to_rgb color_input ;; Ok (Some rgb)
  else if startswith "rgb(" color_input && endswith ")" color_input
  then rgb_of_fields (split "," (slice_to_last 4 color_input))
  else if contains "," color_input && negb (startswith "cmyk" color_input)
  then rgb_of_fields (split "," color_input)
  else if startswith "cmyk(" color_input && endswith ")" color_input
  then cmyk_of_fields (split "," (slice_to_last 5 color_input))
  else if contains "," color_input
  then cmyk_of_fields (split "," color_input)
  else Ok None.

(** [None] is the "invalid" answer; [ValueError] and [IndexError] are
    caught, any other exception leaves the function. *)
Definition parse_color_input (color_input : string)
  : result (option RGB) :=
  let color_input := lower (strip color_input) in
  match parse_color_branches color_input with
  | Raise ValueError | Raise IndexError => Ok None
  | r => r
  end.

(** [validate_hex_color] *)
Definition validate_hex_color (hex_color : string) : bool :=
  let hex_color := lstrip_char "#" hex_color in
  if negb (length hex_color =? 6)%nat then false
  else match int_of_string 16 hex_color with
       | Ok _ => true
       | Raise _ => false
       end.

End ColorParser.

(** ** Grid layout *)

Module Grid.

(** The module-level constants set before [merge_images] is called. *)
Definition border_spacing : Z := 10.
Definition image_spacing : Z := 10.

(** [math.ceil(math.sqrt(n))], [math.ceil(n / d)] and [int(n * 0.20)] on
    integers.  The source computes them through binary64
    ([ceil_sqrt_double], [ceil_div_double], [int_fifth_double]); for all
    arguments below [2 ^ 31] the double results are the exact ones
    ([GridFacts.ceil_sqrt_double_exact], [GridFacts.ceil_div_double_exact],
    [GridFacts.int_fifth_double_exact]), and the layout is stated on the
    exact integer functions. *)
Definition ceil_sqrt (n : Z) : Z :=
  let s := Z.sqrt n in
  if s * s =? n then s else s + 1.

Definition ceil_div (n d : Z) : Z := - ((- n) / d).

Definition int_fifth (n : Z) : Z := Z.quot n 5.

(** The same three computations exactly as the source performs them. *)
Definition ceil_sqrt_double (n : Z) : result Z :=
  PyNum.ceil_of_float (PyNum.fsqrt (PyNum.float_of_Z n)).

Definition ceil_div_double (n d : Z) : result Z :=
  PyNum.ceil_of_float (PyNum.fdiv (PyNum.float_of_Z n) (PyNum.float_of_Z d)).

Definition int_fifth_double (n : Z) : result Z :=
  match PyNum.float_of_string "0.20" with
  | Ok f => PyNum.int_of_float (PyNum.fmul (PyNum.float_of_Z n) f)
  | Raise e => Raise e
  end.

Definition grid_columns (total_images : Z) : Z :=
  if total_images <=? 4 then 2
  else if total_images <=? 9 then 3
  else if total_images <=? 16 then 4
  else ceil_sqrt total_images.

Definition grid_rows (total_images columns : Z) : Z :=
  ceil_div total_images columns.

(** Columns and rows with the double arithmetic of the source. *)
Definition grid_columns_double (total_images : Z) : result Z :=
  if total_images <=? 4 then Ok 2
  else if total_images <=? 9 then Ok 3
  else if total_images <=? 16 then Ok 4
  else ceil_sqrt_double total_images.

Definition grid_rows_double (total_images columns : Z) : result Z :=
  ceil_div_double total_images columns.

Definition cell_width (image_size columns : Z) : Z :=
  let usable_size := image_size - 2 * border_spacing in
  (usable_size - (columns - 1) * image_spacing) / columns.

Definition cell_height (image_size rows : Z) (include_band : bool) : Z :=
  let usable_size := image_size - 2 * border_spacing in
  let image_height := (usable_size - (rows - 1) * image_spacing) / rows in
  if include_band then
    let band_area := int_fifth image_size in
    let content_height := image_size - band_area in
    Z.min image_height
      ((content_height - 2 * border_spacing - (rows - 1) * image_spacing)
         / rows)
  else image_height.

(** [for idx, img in enumerate(...)] *)
Definition enumerate {A : Type} (l : list A) : list (Z * A) :=
  combine (map Z.of_nat (seq 0 (List.length l))) l.



End Grid.

(** ** Rasters *)

Module Raster.

(** An RGBA pixel. *)
Definition Pixel : Type := (Z * Z * Z * Z)%type.

Definition alpha (p : Pixel) : Z := snd p.

Definition transparent : Pixel := (0, 0, 0, 0).

Record Image : Type := mkImage {
  width : Z;
  height : Z;
  getpixel : Z -> Z -> Pixel
}.

Definition size (im : Image) : Z * Z := (width im, height im).

Definition inside (im : Image) (x y : Z) : bool :=
  (0 <=? x) && (x <? width im) && (0 <=? y) && (y <? height im).

(** [Image.new('RGBA', (w, h))] *)
Definition Image_new (w h : Z) : Image :=
  mkImage w h (fun _ _ => transparent).

(** [im.crop((left, upper, right, lower))] *)
Definition crop (im : Image) (left upper right lower : Z) : Image :=
  mkImage (right - left) (lower - upper)
    (fun x y =>
       if inside im (x + left) (y + upper)
       then getpixel im (x + left) (y + upper)
       else transparent).

Definition in_box (src : Image) (x0 y0 x y : Z) : bool :=
  (x0 <=? x) && (x <? x0 + width src) && (y0 <=? y) && (y <? y0 + height src).

(** [dst.paste(src, (x0, y0))] *)
Definition paste (dst src : Image) (x0 y0 : Z) : Image :=
  mkImage (width dst) (height dst)
    (fun x y =>
       if in_box src x0 y0 x y then getpixel src (x - x0) (y - y0)
       else getpixel dst x y).

Section Blending.
(** What Pillow computes for one pixel: [blend d s a] mixes the pasted
    pixel [s] into [d] under mask value [a]; [over d s] is alpha
    compositing of [s] over [d]. *)
Variable blend : Pixel -> Pixel -> Z -> Pixel.
Variable over : Pixel -> Pixel -> Pixel.

(** [dst.paste(src, (x0, y0), mask)] with an RGBA mask of the size of
    [src]: the mask's alpha band drives the mix. *)
Definition paste_mask (dst src : Image) (x0 y0 : Z) (mask : Image)
  : Image :=
  mkImage (width dst) (height dst)
    (fun x y =>
       if in_box src x0 y0 x y
       then blend (getpixel dst x y) (getpixel src (x - x0) (y - y0))
                  (alpha (getpixel mask (x - x0) (y - y0)))
       else getpixel dst x y).

(** [Image.alpha_composite(im1, im2)]: [im2] over [im1]; the sizes must
    agree. *)
Definition alpha_composite (im1 im2 : Image) : result Image :=
  if (width im1 =? width im2) && (height im1 =? height im2)
  then Ok (mkImage (width im1) (height im1)
             (fun x y => over (getpixel im1 x y) (getpixel im2 x y)))
  else Raise ValueError.
End Blending.

End Raster.

(** ** Banner composition *)

Module Banner.
Import PyStr Grid Raster.

Definition RGB : Type := ColorParser.RGB.

(** What the program prints. *)
Inductive LogEntry : Type :=
| NoImagesFound                  (* "No images found in the ..." *)
| LoadFailed (path : string)     (* "Failed to load image: ..." *)
| Processing (folder : string).  (* "Processing images from: ..." *)

(** A file written by [final_image.save]: directory, name, content. *)
Definition SavedFile : Type := (string * string * Image)%type.

(** What one call leaves behind: the lines printed, the files written, the
    position reached in the stream of random draws, and the exception that
    left the call, if any. *)
Record Outcome : Type := mkOutcome {
  o_log : list LogEntry;
  o_saved : list SavedFile;
  o_rng : nat;
  o_exn : option exn
}.

Section Compose.
(** Pillow, per pixel. *)
Variable blend : Pixel -> Pixel -> Z -> Pixel.
Variable over : Pixel -> Pixel -> Pixel.
(** [im.resize((w, h))]: the pixels of the resampled raster. *)
Variable resample : Image -> Z -> Z -> Z -> Z -> Pixel.
(** [Image.open(path)]: [None] when opening or decoding raises. *)
Variable open_image : string -> option Image.
(** [img.thumbnail((w, h), Image.LANCZOS)]: the fitted raster, [None]
    when it raises. *)
Variable thumbnail : Image -> Z -> Z -> option Image.
(** The rounded rectangle and the six text lines drawn on the band: the
    band's pixels for a width, a band height, a file total and a colour. *)
Variable draw_band : Z -> Z -> Z -> RGB -> Z -> Z -> Pixel.
(** The draws of the random generator, in the order they are taken. *)
Variable draws : nat -> nat.
(** [glob.glob(os.path.join(folder, '**', '*.png'), recursive=True)] *)
Variable glob_png : string -> list string.

Definition resize (im : Image) (sz : Z * Z) : Image :=
  mkImage (fst sz) (snd sz) (resample im (fst sz) (snd sz)).

(** Rasters of the model are RGBA throughout. *)
Definition check_image_mode (image : Image) : Image := image.

Definition add_info_band (image : Image) (file_count : Z)
           (theme_color : RGB) : Image :=
  let '(width, height) := size image in
  let band_height := int_fifth height in
  let total_files := file_count * 3 in
  let band :=
    mkImage width band_height
      (draw_band width band_height total_files theme_color) in
  let position := (height - band_height) / 2 in
  let final_image := Image_new width height in
  let final_image :=
    paste final_image (crop image 0 0 width position) 0 0 in
  let final_image := paste_mask blend final_image band 0 position band in
  let final_image :=
    paste final_image (crop image 0 position width height)
          0 (position + band_height) in
  final_image.

(** The body of the [try] in the loading loop. *)
Definition load_image (path : string) (image_width image_height : Z)
  : option Image :=
  match open_image path with
  | Some img => thumbnail (check_image_mode img) image_width image_height
  | None => None
  end.

Fixpoint load_images (paths : list string) (image_width image_height : Z)
  : list Image * list LogEntry :=
  match paths with
  | [] => ([], [])
  | path :: rest =>
      let '(imgs, lg) := load_images rest image_width image_height in
      match load_image path image_width image_height with
      | Some img => (img :: imgs, lg)
      | None => (imgs, LoadFailed path :: lg)
      end
  end.

(** [random.choice(seq)] at draw number [k]. *)
Definition random_choice (l : list Image) (k : nat) : result Image :=
  match l with
  | [] => Raise IndexError
  | d :: _ => Ok (nth (draws k mod List.length l)%nat l d)
  end.

(** [for _ in range(missing): placed.append(random.choice(placed).copy())] *)
Fixpoint fill_grid (missing : nat) (placed : list Image) (k : nat)
  : result (list Image) * nat :=
  match missing with
  | O => (Ok placed, k)
  | S missing' =>
      match random_choice placed k with
      | Ok img => fill_grid missing' (placed ++ [img]) (S k)
      | Raise e => (Raise e, k)
      end
  end.

(** Where the [idx]-th image is pasted. *)
Definition paste_position (columns image_width image_height idx : Z)
           (img : Image) : Z * Z :=
  let col := idx mod columns in
  let row := idx / columns in
  let x := border_spacing + col * (image_width + image_spacing) in
  let y := border_spacing + row * (image_height + image_spacing) in
  let offset_x := (image_width - width img) / 2 in
  let offset_y := (image_height - height img) / 2 in
  (x + offset_x, y + offset_y).

Definition place_one (columns image_width image_height : Z)
           (final_image : Image) (item : Z * Image) : Image :=
  let '(idx, img) := item in
  let '(px, py) :=
    paste_position columns image_width image_height idx img in
  paste_mask blend final_image img px py img.

Definition place_images (columns image_width image_height : Z)
           (final_image : Image) (placed : list Image) : Image :=
  fold_left (place_one columns image_width image_height)
            (enumerate placed) final_image.

(** The part of [merge_images] after the grid is assembled: background,
    band, watermark. *)
Definition finish (final_image background watermark : Image)
           (png_count : Z) (theme_color : option RGB)
           (include_band : bool) : result Image :=
  final_image <-
    alpha_composite over (resize background (size final_image))
                    final_image ;;
  let final_image :=
    match include_band, theme_color with
    | true, Some color => add_info_band final_image png_count color
    | _, _ => final_image
    end in
  alpha_composite over final_image (resize watermark (size final_image)).

Definition count_png (input_paths : list string) : Z :=
  Z.of_nat
    (List.length (filter (fun f => endswith ".png" (lower f)) input_paths)).

(** [merge_images] up to the end of the placement loop: the lines
    printed, the grid canvas (or the exception), the next draw. *)
Definition assemble_grid (input_paths : list string) (image_size : Z)
           (include_band : bool) (k : nat)
  : list LogEntry * result Image * nat :=
  let total_images := Z.of_nat (List.length input_paths) in
  let columns := grid_columns total_images in
  let rows := grid_rows total_images columns in
  let image_width := cell_width image_size columns in
  let image_height := cell_height image_size rows include_band in
  let final_image := Image_new image_size image_size in
  let '(placed_images, lg) :=
    load_images input_paths image_width image_height in
  let missing :=
    Z.to_nat (rows * columns - Z.of_nat (List.length placed_images)) in
  match fill_grid missing placed_images k with
  | (Raise e, k') => (lg, Raise e, k')
  | (Ok placed_images, k') =>
      (lg,
       Ok (place_images columns image_width image_height
                        final_image placed_images),
       k')
  end.

Definition merge_images (input_paths : list string) (image_size : Z)
           (background watermark : Image) (output_folder : string)
           (theme_color : option RGB) (include_band : bool) (k : nat)
  : Outcome :=
  match input_paths with
  | [] => mkOutcome [NoImagesFound] [] k None
  | _ =>
      let png_count := count_png input_paths in
      let '(lg, grid, k') :=
        assemble_grid input_paths image_size include_band k in
      match final_image <- grid ;;
            finish final_image background watermark png_count
                   theme_color include_band with
      | Raise e => mkOutcome lg [] k' (Some e)
      | Ok final_image =>
          mkOutcome lg
            [(output_folder, "final_output.png", final_image)]
            k' None
      end
  end.

(** The loop over the folders at the end of the script, with the fixed
    canvas size; an exception leaving [merge_images] ends the run. *)
Fixpoint process_folders (folder_list : list string)
         (background watermark : Image) (output_folder : string)
         (theme_color : option RGB) (include_band : bool) (k : nat)
  : Outcome :=
  match folder_list with
  | [] => mkOutcome [] [] k None
  | folder :: rest =>
      let image_paths := glob_png folder in
      let o := merge_images image_paths 2000 background watermark
                 output_folder theme_color include_band k in
      match o_exn o with
      | Some e =>
          mkOutcome (Processing folder :: o_log o) (o_saved o)
                    (o_rng o) (Some e)
      | None =>
          let o' := process_folders rest background watermark
                      output_folder theme_color include_band (o_rng o) in
          mkOutcome (Processing folder :: o_log o ++ o_log o')
                    (o_saved o ++ o_saved o') (o_rng o') (o_exn o')
      end
  end.
End Compose.

End Banner.

(** ** Concrete parameters for running the model *)

Module Sample.
Import Raster Banner.

(** Pillow's 8-bit mix [(a * b + 128 + ((a * b + 128) >> 8)) >> 8]. *)
Definition muldiv255 (a b : Z) : Z :=
  let t := a * b + 128 in
  Z.shiftr (Z.shiftr t 8 + t) 8.

Definition blend8 (mask in1 in2 : Z) : Z :=
  muldiv255 in1 (255 - mask) + muldiv255 in2 mask.

Definition blend (d s : Pixel) (a : Z) : Pixel :=
  let '(dr, dg, db, da) := d in
  let '(sr, sg, sb, sa) := s in
  (blend8 a dr sr, blend8 a dg sg, blend8 a db sb, blend8 a da sa).

(** Source-over for an opaque or fully transparent source pixel. *)
Definition over (d s : Pixel) : Pixel :=
  if alpha s =? 0 then d else s.

(** Nearest-neighbour resampling. *)
Definition resample (im : Image) (w h x y : Z) : Pixel :=
  getpixel im (x * width im / w) (y * height im / h).

Definition solid (w h : Z) (p : Pixel) : Image :=
  mkImage w h (fun _ _ => p).

(** A folder in which every file decodes except those named ["bad.png"]. *)
Definition open_image (path : string) : option Image :=
  if String.eqb path "bad.png" then None
  else Some (solid 500 500 (Z.of_nat (String.length path), 0, 0, 255)).

Definition thumbnail (im : Image) (w h : Z) : option Image :=
  if (w <=? 0) || (h <=? 0) then None
  else
    let s := Z.min (Z.min w h) (Z.min (width im) (height im)) in
    Some (mkImage s s (resample im s s)).

(** A band filled with the theme colour, without the text. *)
Definition draw_band (w bh total : Z) (c : RGB) (x y : Z) : Pixel :=
  let '(r, g, b) := c in
  if (5 <=? x) && (5 <=? y) then (r, g, b, 255) else transparent.

Definition draws (k : nat) : nat := (7 * k + 3)%nat.

Definition glob_png (folder : string) : list string :=
  if String.eqb folder "empty" then []
  else if String.eqb folder "broken" then ["bad.png"]
  else ["a.png"; "bb.png"; "ccc.png"].

(** [merge_images] on these parameters. *)
Definition merge :=
  merge_images blend over resample open_image thumbnail draw_band draws.


End Sample.

(** ** Folder list, folder check and watermark opacity *)

Module Setup.
Import PyStr PyNum.

Definition LF : ascii := "010"%char.
Definition CR : ascii := "013"%char.

(** A file opened in text mode for writing: each newline is written as
    [os.linesep], which is CR LF on Windows ([crlf]) and LF elsewhere. *)
Fixpoint write_text (crlf : bool) (text : string) : string :=
  match text with
  | EmptyString => EmptyString
  | String c rest =>
      if Ascii.eqb c LF && crlf
      then String CR (String LF (write_text crlf rest))
      else String c (write_text crlf rest)
  end.

(** A file opened in text mode for reading: CR LF and a lone CR are read
    as a newline. *)
Fixpoint read_text (raw : string) : string :=
  match raw with
  | EmptyString => EmptyString
  | String c rest =>
      if Ascii.eqb c CR
      then String LF
             match rest with
             | String c' rest' =>
                 if Ascii.eqb c' LF then read_text rest'
                 else read_text rest
             | EmptyString => EmptyString
             end
      else String c (read_text rest)
  end.

(** [for line in f] on the text read: the lines, each with its newline
    (the last one without, when the text does not end in one). *)
Fixpoint file_lines (text : string) : list string :=
  match text with
  | EmptyString => []
  | String c rest =>
      if Ascii.eqb c LF then String c EmptyString :: file_lines rest
      else match file_lines rest with
           | [] => [String c EmptyString]
           | line :: more => String c line :: more
           end
  end.

(** [line.strip() and not line.startswith('#')] *)
Definition keep_line (line : string) : bool :=
  negb (String.eqb (strip line) "") && negb (startswith "#" line).

(** [[line.strip() for line in f if line.strip() and not
    line.startswith('#')]] on the content [raw] of the file. *)
Definition read_folder_list (raw : string) : list string :=
  map strip (filter keep_line (file_lines (read_text raw))).

(** The two [f.write] calls of [initial_setup] for [folder_list.txt]. *)
Definition folder_list_text (desktop_images_path : string) : string :=
  ("# Add your image folder paths here (one per line)"
   ++ String LF EmptyString)
  ++ (desktop_images_path ++ String LF EmptyString).

(** A directory as [os.walk] sees it: its file names and its
    subdirectories. *)
#[local] Unset Elimination Schemes.
Inductive Dir : Type :=
| mkDir (files : list string) (subdirs : list Dir).
#[local] Set Elimination Schemes.

Definition supported_extensions : list string :=
  [".png"; ".jpg"; ".jpeg"; ".gif"; ".bmp"; ".tiff"; ".webp"].

(** [any(file.lower().endswith(ext) for ext in supported_extensions)] *)
Definition has_supported_extension (file : string) : bool :=
  existsb (fun ext => endswith ext (lower file)) supported_extensions.

(** The walk of [check_images_in_folder]: the files of a directory, then
    its subdirectories in turn. *)
Fixpoint check_images_in_tree (d : Dir) : bool :=
  match d with
  | mkDir files subdirs =>
      existsb has_supported_extension files
      || existsb check_images_in_tree subdirs
  end.

(** [None] is a path that is no directory: [os.walk] yields nothing. *)
Definition check_images_in_folder (folder : option Dir) : bool :=
  match folder with
  | Some d => check_images_in_tree d
  | None => false
  end.

(** Every file name below a directory, at any depth. *)
Fixpoint all_files (d : Dir) : list string :=
  match d with
  | mkDir files subdirs => (files ++ flat_map all_files subdirs)%list
  end.

(** [max(0, min(100, transparency_percent))] *)
Definition clamp_percent (transparency_percent : Z) : Z :=
  Z.max 0 (Z.min 100 transparency_percent).

(** [int(p * (transparency_percent / 100))], the function given to
    [a.point] for the watermark's alpha band. *)
Definition scale_alpha (transparency_percent p : Z) : result Z :=
  int_of_float
    (fmul (float_of_Z p)
          (fdiv (float_of_Z transparency_percent) (float_of_Z 100))).

(** The integers [lo], ..., [lo + len - 1]. *)
Definition range (lo len : Z) : list Z :=
  map (fun i => lo + Z.of_nat i) (seq 0 (Z.to_nat len)).

End Setup.

(** * Properties *)

(** ** Strings *)

Module StrFacts.
Import PyStr.

Lemma contains_eqb (sep c : ascii) (s : string) :
  contains sep (String c s) = false ->
  Ascii.eqb c sep = false /\ contains sep s = false.
Proof.
  cbn [contains]. intros H. apply orb_false_iff in H. destruct H as [H1 H2].
  rewrite Ascii.eqb_sym. auto.
Qed.

(** A field without the separator is one field. *)
Lemma split_no_sep (sep : ascii) (f : string) :
  contains sep f = false -> split sep f = [f].
Proof.
  induction f as [| c f IH]; intros H; [reflexivity |].
  apply contains_eqb in H. destruct H as [Hc Hf].
  cbn. rewrite Hc, (IH Hf). reflexivity.
Qed.

(** [split] cuts at the first separator after a field without one. *)
Lemma split_app (sep : ascii) (f rest : string) :
  contains sep f = false ->
  split sep (f ++ String sep rest) = f :: split sep rest.
Proof.
  induction f as [| c f IH]; intros H.
  - cbn. now rewrite Ascii.eqb_refl.
  - apply contains_eqb in H. destruct H as [Hc Hf].
    cbn. rewrite Hc, (IH Hf). reflexivity.
Qed.

Lemma drop_last_app (x : string) (c : ascii) :
  drop_last (x ++ String c EmptyString) = x.
Proof.
  induction x as [| a x IH]; [reflexivity |].
  cbn [append]. cbn [append] in IH.
  destruct x as [| b x]; [reflexivity |].
  cbn [append drop_last] in *. now rewrite IH.
Qed.

Lemma drop_length_app (x y : string) :
  drop (length x) (x ++ y) = y.
Proof. induction x as [| a x IH]; [reflexivity | exact IH]. Qed.

Lemma length_app_char (x : string) (c : ascii) :
  length (x ++ String c EmptyString) = S (length x).
Proof. induction x as [| a x IH]; cbn; [reflexivity | now rewrite IH]. Qed.

Lemma endswith_app_char (x : string) (c : ascii) :
  endswith (String c EmptyString) (x ++ String c EmptyString) = true.
Proof.
  unfold endswith. rewrite length_app_char. cbn [length].
  replace (S (length x) - 1)%nat with (length x) by lia.
  rewrite drop_length_app, String.eqb_refl. reflexivity.
Qed.

Lemma app_assoc_char (x y : string) (c : ascii) :
  (x ++ String c y)%string = ((x ++ String c EmptyString) ++ y)%string.
Proof. induction x as [| a x IH]; cbn; [reflexivity | now rewrite IH]. Qed.

Lemma append_assoc (x y z : string) :
  (x ++ (y ++ z))%string = ((x ++ y) ++ z)%string.
Proof. induction x as [| a x IH]; cbn; [reflexivity | now rewrite IH]. Qed.

(** A string with a comma is not six lower-case hexadecimal digits. *)
Lemma comma_not_hex (s : string) :
  contains "," s = true -> all_chars ColorParser.is_lower_hex s = false.
Proof.
  induction s as [| c s IH]; intros H; [discriminate |].
  cbn [contains] in H. apply orb_true_iff in H. destruct H as [H | H].
  - apply Ascii.eqb_eq in H. subst c. reflexivity.
  - cbn [all_chars]. rewrite (IH H). apply andb_false_r.
Qed.

End StrFacts.

(** ** Binary64 arithmetic: magnitudes through rounding

    Bounds on what [SpecFloat]'s rounding and operations return, enough to
    show that a computation stays finite. *)

Module FloatFacts.
Import PyNum.

Lemma digits2_size (p : positive) : digits2_pos p = Pos.size p.
Proof. induction p; cbn; congruence. Qed.

Lemma Zdigits2_nonneg (m : Z) : 0 <= Zdigits2 m.
Proof. destruct m; cbn; lia. Qed.

Lemma Zdigits2_gt (m : Z) : 0 <= m -> m < 2 ^ Zdigits2 m.
Proof.
  destruct m as [| p | p]; intros H; cbn [Zdigits2]; [reflexivity | | lia].
  rewrite digits2_size.
  assert (Hs := Pos.size_gt p).
  rewrite <- Pos2Z.inj_pow. lia.
Qed.

Lemma Zdigits2_le_half (p : positive) : 2 ^ Zdigits2 (Zpos p) <= 2 * Zpos p.
Proof.
  cbn [Zdigits2]. rewrite digits2_size.
  assert (Hs := Pos.size_le p).
  rewrite <- Pos2Z.inj_pow. lia.
Qed.

Lemma Zdigits2_le (m k : Z) : 0 <= m -> 0 <= k -> m < 2 ^ k -> Zdigits2 m <= k.
Proof.
  intros Hm Hk Hlt. destruct m as [| p | p]; [cbn; lia | | lia].
  assert (Hh := Zdigits2_le_half p).
  assert (Hd := Zdigits2_nonneg (Zpos p)).
  destruct (Z_le_gt_dec (Zdigits2 (Zpos p)) k) as [| Hgt]; [assumption |].
  exfalso.
  assert (2 ^ (k + 1) <= 2 ^ Zdigits2 (Zpos p)) by (apply Z.pow_le_mono_r; lia).
  rewrite Z.pow_add_r in H by lia. lia.
Qed.

Lemma shr_1_m (mrs : shr_record) :
  0 <= shr_m mrs -> shr_m (shr_1 mrs) = shr_m mrs / 2.
Proof.
  destruct mrs as [m r s]. cbn [shr_m]. intros Hm.
  destruct m as [| p | p]; [reflexivity | | lia].
  destruct p as [p | p |]; cbn [shr_1 shr_m].
  - rewrite Pos2Z.inj_xI. symmetry.
    rewrite Z.add_comm, Z.mul_comm, Z.div_add by lia. reflexivity.
  - rewrite Pos2Z.inj_xO. symmetry.
    rewrite Z.mul_comm, Z.div_mul by lia. reflexivity.
  - reflexivity.
Qed.

Lemma pow2_double (p : positive) : 2 ^ Zpos p~0 = 2 ^ Zpos p * 2 ^ Zpos p.
Proof.
  replace (Zpos p~0) with (Zpos p + Zpos p) by lia.
  apply Z.pow_add_r; lia.
Qed.

Lemma iter_shr_1_m (p : positive) :
  forall mrs, 0 <= shr_m mrs ->
    shr_m (iter_pos shr_1 p mrs) = shr_m mrs / 2 ^ Zpos p.
Proof.
  induction p as [p IH | p IH |]; intros mrs Hm; cbn [iter_pos].
  - assert (H1 : shr_m (shr_1 mrs) = shr_m mrs / 2)
      by (apply shr_1_m; exact Hm).
    assert (P1 : 0 <= shr_m (shr_1 mrs)) by (rewrite H1; apply Z.div_pos; lia).
    assert (H2 := IH _ P1).
    assert (P2 : 0 <= shr_m (iter_pos shr_1 p (shr_1 mrs)))
      by (rewrite H2; apply Z.div_pos; lia).
    rewrite (IH _ P2), H2, H1, !Z.div_div by lia.
    f_equal. replace (Zpos p~1) with (Zpos p~0 + 1) by lia.
    rewrite Z.pow_add_r, pow2_double by lia. lia.
  - assert (H2 := IH _ Hm).
    assert (P2 : 0 <= shr_m (iter_pos shr_1 p mrs))
      by (rewrite H2; apply Z.div_pos; lia).
    rewrite (IH _ P2), H2, !Z.div_div by lia.
    f_equal. symmetry. apply pow2_double.
  - rewrite shr_1_m by assumption. reflexivity.
Qed.

Lemma round_nearest_even_bounds (m : Z) (l : location) :
  m <= round_nearest_even m l <= m + 1.
Proof.
  destruct l as [| []]; cbn; try lia.
  destruct (Z.even m); lia.
Qed.

Lemma shr_1_exact (c : Z) :
  0 <= c ->
  shr_1 (Build_shr_record (2 * c) false false) = Build_shr_record c false false.
Proof.
  destruct c as [| q | q]; intros H; [reflexivity | reflexivity | lia].
Qed.

(** Shifting out bits that are all zero leaves an exact location. *)
Lemma iter_shr_1_exact (p : positive) :
  forall c, 0 <= c ->
    iter_pos shr_1 p (Build_shr_record (c * 2 ^ Zpos p) false false)
    = Build_shr_record c false false.
Proof.
  induction p as [p IH | p IH |]; intros c Hc; cbn [iter_pos].
  - replace (c * 2 ^ Zpos p~1) with (2 * ((c * 2 ^ Zpos p) * 2 ^ Zpos p)).
    + rewrite shr_1_exact by (apply Z.mul_nonneg_nonneg; [| lia];
                              apply Z.mul_nonneg_nonneg; lia).
      rewrite IH by (apply Z.mul_nonneg_nonneg; lia). apply IH; exact Hc.
    + replace (Zpos p~1) with (Zpos p~0 + 1) by lia.
      rewrite Z.pow_add_r, pow2_double by lia. ring.
  - replace (c * 2 ^ Zpos p~0) with ((c * 2 ^ Zpos p) * 2 ^ Zpos p)
      by (rewrite pow2_double; ring).
    rewrite IH by (apply Z.mul_nonneg_nonneg; lia). apply IH; exact Hc.
  - replace (c * 2 ^ 1) with (2 * c) by ring. apply shr_1_exact; exact Hc.
Qed.

Lemma shr_spec (m e n : Z) (l : location) :
  0 <= m ->
  exists mrs,
    shr (shr_record_of_loc m l) e n = (mrs, e + Z.max n 0)
    /\ shr_m mrs = m / 2 ^ Z.max n 0.
Proof.
  intros Hm.
  assert (Hr : shr_m (shr_record_of_loc m l) = m)
    by (destruct l as [| []]; reflexivity).
  destruct n as [| p | p]; cbn [shr].
  - exists (shr_record_of_loc m l). rewrite Z.max_id, Z.add_0_r.
    split; [reflexivity |]. rewrite Hr. cbn. now rewrite Z.div_1_r.
  - eexists. rewrite Z.max_l by lia. split; [reflexivity |].
    rewrite iter_shr_1_m by (rewrite Hr; exact Hm). now rewrite Hr.
  - exists (shr_record_of_loc m l). rewrite Z.max_r, Z.add_0_r by lia.
    split; [reflexivity |]. rewrite Hr. cbn. now rewrite Z.div_1_r.
Qed.

Lemma Zdigits2_ge (m : Z) : 0 < m -> 2 ^ (Zdigits2 m - 1) <= m.
Proof.
  intros Hm. destruct m as [| p | p]; try lia.
  assert (H := Zdigits2_le_half p).
  assert (N : 1 <= Zdigits2 (Zpos p)) by (cbn; lia).
  replace (Zdigits2 (Zpos p)) with (1 + (Zdigits2 (Zpos p) - 1)) in H at 1
    by lia.
  rewrite Z.pow_add_r in H by lia. lia.
Qed.

Lemma Zdigits2_mono (a b : Z) : 0 <= a <= b -> Zdigits2 a <= Zdigits2 b.
Proof.
  intros H. apply Zdigits2_le; try lia.
  - apply Zdigits2_nonneg.
  - assert (G := Zdigits2_gt b ltac:(lia)). lia.
Qed.

(** The anatomy of one rounding: the mantissa [m2] kept after the first
    shift and the round-to-nearest step, at exponent [e1], and the float
    built from it. *)
Lemma binary_round_aux_anatomy (s : bool) (mx ex : Z) (lx : location) :
  0 <= mx ->
  let K := Z.max (Zdigits2 mx + ex) (-1074) in
  let e1 := Z.max ex (fexp 53 1024 (Zdigits2 mx + ex)) in
  exists m2,
    mx / 2 ^ (e1 - ex) <= m2 <= mx / 2 ^ (e1 - ex) + 1
    /\ m2 <= 2 ^ (K - e1)
    /\ e1 <= K <= e1 + 53
    /\ (lx = loc_Exact ->
        forall c, 0 <= c -> mx = c * 2 ^ (e1 - ex) -> m2 = c)
    /\ match binary_round_aux 53 1024 s mx ex lx with
       | S754_zero _ => m2 = 0
       | S754_finite s' m e =>
           s' = s
           /\ ((Zdigits2 m2 <= 53 /\ Zpos m = m2 /\ e = e1)
               \/ (m2 = 2 ^ 53 /\ Zpos m = 2 ^ 52 /\ e = e1 + 1
                   /\ K = e1 + 53))
       | S754_infinity _ => 971 < K
       | S754_nan => False
       end.
Proof.
  intros Hm K e1. unfold binary_round_aux, shr_fexp.
  set (d := Zdigits2 mx) in *.
  assert (Hd := Zdigits2_nonneg mx). fold d in Hd.
  assert (Hlt := Zdigits2_gt mx Hm). fold d in Hlt.
  set (n := fexp 53 1024 (d + ex) - ex).
  destruct (shr_spec mx ex n lx Hm) as (r1 & E1 & M1).
  assert (Ee : ex + Z.max n 0 = e1) by (unfold e1, n; lia).
  assert (Hexact : lx = loc_Exact ->
                   forall c, 0 <= c -> mx = c * 2 ^ (e1 - ex) ->
                   round_nearest_even (shr_m r1) (loc_of_shr_record r1) = c).
  { intros -> c Hc Hmx. assert (F := f_equal fst E1). cbn [fst] in F.
    clear E1. unfold shr in F. destruct n as [| p | p].
    - subst r1. cbn.
      replace (e1 - ex) with 0 in Hmx by lia. rewrite Hmx. cbn. lia.
    - replace (e1 - ex) with (Zpos p) in Hmx by lia.
      cbn [shr_record_of_loc] in F.
      rewrite Hmx, (iter_shr_1_exact p c Hc) in F.
      subst r1. reflexivity.
    - subst r1. cbn.
      replace (e1 - ex) with 0 in Hmx by lia. rewrite Hmx. cbn. lia. }
  rewrite E1.
  rewrite Ee in *.
  replace (Z.max n 0) with (e1 - ex) in M1 by lia.
  set (m2 := round_nearest_even (shr_m r1) (loc_of_shr_record r1)) in *.
  assert (Hm1 : 0 <= shr_m r1) by (rewrite M1; apply Z.div_pos; lia).
  assert (Hr := round_nearest_even_bounds (shr_m r1) (loc_of_shr_record r1)).
  fold m2 in Hr.
  assert (Hm2 : 0 <= m2) by lia.
  set (n2 := fexp 53 1024 (Zdigits2 m2 + e1) - e1).
  destruct (shr_spec m2 e1 n2 loc_Exact Hm2) as (r2 & E2 & M2). rewrite E2.
  assert (HK : e1 <= K <= e1 + 53) by (unfold K, e1, fexp, emin; lia).
  assert (Hb1 : shr_m r1 < 2 ^ (K - e1)).
  { rewrite M1.
    assert (Hp : 0 < 2 ^ (e1 - ex)) by (apply Z.pow_pos_nonneg; unfold e1; lia).
    assert (Hq : 0 < 2 ^ (K - e1)) by (apply Z.pow_pos_nonneg; lia).
    assert (Hpq : 2 ^ d <= 2 ^ (e1 - ex) * 2 ^ (K - e1)).
    { rewrite <- Z.pow_add_r by (unfold e1; lia).
      apply Z.pow_le_mono_r; unfold K; lia. }
    apply Z.div_lt_upper_bound; lia. }
  assert (Hb2 : m2 <= 2 ^ (K - e1)) by lia.
  exists m2. rewrite <- M1.
  split; [exact Hr |]. split; [exact Hb2 |]. split; [exact HK |].
  split; [exact Hexact |].
  assert (Hd2 : Zdigits2 m2 <= K - e1 + 1).
  { apply Zdigits2_le; try lia. rewrite Z.pow_add_r by lia. lia. }
  assert (Hd2n := Zdigits2_nonneg m2).
  assert (Hn2 : n2 = Z.max (Zdigits2 m2 - 53) (-1074 - e1)).
  { unfold n2, fexp, emin. lia. }
  assert (He1min : -1074 <= e1) by (unfold e1, fexp, emin; lia).
  destruct (Z_le_gt_dec n2 0) as [Hn | Hn].
  - replace (Z.max n2 0) with 0 in * by lia.
    rewrite Z.div_1_r in M2. rewrite M2, Z.add_0_r.
    destruct m2 as [| p | p]; [reflexivity | | lia].
    destruct (Z.leb_spec e1 (1024 - 53)); [| lia].
    split; [reflexivity |]. left. lia.
  - assert (n2 = 1) by lia.
    replace (Z.max n2 0) with 1 in * by lia.
    assert (Hd54 : Zdigits2 m2 = 54) by lia.
    assert (Hke : K - e1 = 53) by lia.
    assert (Hge : 2 ^ 53 <= m2).
    { assert (G := Zdigits2_ge m2).
      rewrite Hd54 in G. apply G.
      destruct m2; [discriminate Hd54 | lia | lia]. }
    rewrite Hke in Hb2.
    assert (Hv : m2 = 2 ^ 53) by lia.
    rewrite M2, Hv. change (2 ^ 53 / 2 ^ 1) with (2 ^ 52).
    change (2 ^ 52) with (Zpos 4503599627370496).
    destruct (Z.leb_spec (e1 + 1) (1024 - 53)); [| lia].
    split; [reflexivity |]. right. repeat split; lia.
Qed.

(** What one rounding returns: never a NaN, a mantissa of at most 53 bits,
    a magnitude at most one above the argument's, and an infinity only for
    arguments beyond the finite range. *)
Lemma binary_round_aux_bounds (s : bool) (mx ex : Z) (lx : location) :
  0 <= mx ->
  let K := Z.max (Zdigits2 mx + ex) (-1074) in
  match binary_round_aux 53 1024 s mx ex lx with
  | S754_nan => False
  | S754_zero _ => True
  | S754_infinity _ => 971 < K
  | S754_finite _ m e =>
      Zdigits2 (Zpos m) <= 53 /\ Zdigits2 (Zpos m) + e <= K + 1
  end.
Proof.
  intros Hm K.
  destruct (binary_round_aux_anatomy s mx ex lx Hm)
    as (m2 & Hm2 & Hb & HK & _ & Hres).
  fold K in Hb, HK, Hres.
  destruct (binary_round_aux 53 1024 s mx ex lx) as [s0 | s0 | | s0 m e];
    [exact I | exact Hres | exact Hres |].
  destruct Hres as [_ [(Hd & Hv & ->) | (_ & Hv & -> & HKe)]]; rewrite Hv.
  - split; [exact Hd |].
    assert (Zdigits2 m2 <= K - Z.max ex (fexp 53 1024 (Zdigits2 mx + ex)) + 1);
      [| lia].
    apply Zdigits2_le; try lia. rewrite Z.pow_add_r by lia. lia.
  - change (Zdigits2 (2 ^ 52)) with 53. lia.
Qed.

Lemma below_weaken (A B : Z) (x : spec_float) :
  A <= B -> below A x -> below B x.
Proof. destruct x; cbn; intuition lia. Qed.

Lemma round_fits (s : bool) (mx ex : Z) (lx : location) :
  0 <= mx -> mantissa_fits (binary_round_aux 53 1024 s mx ex lx).
Proof.
  intros Hm. assert (H := binary_round_aux_bounds s mx ex lx Hm).
  cbv zeta in H. destruct (binary_round_aux 53 1024 s mx ex lx); cbn; tauto.
Qed.

Lemma round_below (s : bool) (mx ex : Z) (lx : location) (B : Z) :
  0 <= mx -> Zdigits2 mx + ex <= B -> -1074 <= B <= 971 ->
  below (B + 1) (binary_round_aux 53 1024 s mx ex lx).
Proof.
  intros Hm Hd HB. assert (H := binary_round_aux_bounds s mx ex lx Hm).
  cbv zeta in H.
  destruct (binary_round_aux 53 1024 s mx ex lx); cbn [below];
    [exact I | lia | exact H | lia].
Qed.

Lemma Zdigits2_mul (p q : positive) :
  Zdigits2 (Zpos (p * q)) <= Zdigits2 (Zpos p) + Zdigits2 (Zpos q).
Proof.
  assert (Hp := Zdigits2_gt (Zpos p) ltac:(lia)).
  assert (Hq := Zdigits2_gt (Zpos q) ltac:(lia)).
  assert (Np := Zdigits2_nonneg (Zpos p)).
  assert (Nq := Zdigits2_nonneg (Zpos q)).
  apply Zdigits2_le; try lia.
  rewrite Z.pow_add_r, Pos2Z.inj_mul by lia. nia.
Qed.

Lemma mul_below (A B : Z) (x y : spec_float) :
  below A x -> below B y -> -1074 <= A + B <= 971 ->
  below (A + B + 1) (SFmul 53 1024 x y).
Proof.
  intros Hx Hy HB.
  destruct x as [sx | sx | | sx mx ex]; try contradiction;
    destruct y as [sy | sy | | sy my ey]; try contradiction; cbn [SFmul];
    try exact I.
  destruct Hx as [_ Hx], Hy as [_ Hy].
  apply round_below; try lia.
  assert (H := Zdigits2_mul mx my). lia.
Qed.

(** The quotient computed for a division: non-negative, and of magnitude at
    most that of the exact quotient. *)
Lemma div_core_bounds (mx my : positive) (ex ey : Z) :
  let '(q, e', _) := SFdiv_core_binary 53 1024 (Zpos mx) ex (Zpos my) ey in
  0 <= q
  /\ Zdigits2 q + e'
     <= Z.max (Zdigits2 (Zpos mx) + ex - (Zdigits2 (Zpos my) + ey) + 1)
              (-1074).
Proof.
  unfold SFdiv_core_binary.
  set (d1 := Zdigits2 (Zpos mx)). set (d2 := Zdigits2 (Zpos my)).
  set (e' := Z.min (fexp 53 1024 (d1 + ex - (d2 + ey))) (ex - ey)).
  set (s := ex - ey - e').
  assert (Hs : 0 <= s) by (unfold s, e'; lia).
  set (m' := match s with
             | 0 => Zpos mx
             | Zpos _ => Z.shiftl (Zpos mx) s
             | Zneg _ => 0
             end).
  assert (Hm' : m' = Zpos mx * 2 ^ s).
  { unfold m'. destruct s as [| p | p]; [cbn; lia | | lia].
    apply Z.shiftl_mul_pow2. lia. }
  assert (Hq := Z.div_eucl_eq m' (Zpos my) ltac:(lia)).
  assert (Hr := Z.mod_pos_bound m' (Zpos my) ltac:(lia)).
  unfold Z.modulo in Hr.
  destruct (Z.div_eucl m' (Zpos my)) as [q r].
  assert (H1 := Zdigits2_gt (Zpos mx) ltac:(lia)). fold d1 in H1.
  assert (H2 := Zdigits2_le_half my). fold d2 in H2.
  assert (N1 := Zdigits2_nonneg (Zpos mx)). fold d1 in N1.
  assert (N2 : 1 <= d2) by (unfold d2; cbn; lia).
  assert (P2 : 0 < 2 ^ s) by (apply Z.pow_pos_nonneg; lia).
  assert (Hq0 : 0 <= q) by nia.
  split; [exact Hq0 |].
  assert (He' : e' <= Z.max (d1 + ex - (d2 + ey) - 53) (-1074))
    by (unfold e', fexp, emin; lia).
  destruct (Z_le_gt_dec 0 (d1 + s - d2 + 1)) as [Hk | Hk].
  - assert (Zdigits2 q <= d1 + s - d2 + 1).
    { apply Zdigits2_le; try lia.
      (* q * my <= m' < 2^(d1+s); 2^d2 <= 2 my *)
      assert (E1 : 2 ^ (d1 + s) = 2 ^ d1 * 2 ^ s) by (apply Z.pow_add_r; lia).
      assert (E2 : 2 ^ (d1 + s - d2 + 1) * 2 ^ d2 = 2 * 2 ^ (d1 + s)).
      { rewrite <- Z.pow_add_r by lia.
        replace (d1 + s - d2 + 1 + d2) with (1 + (d1 + s)) by lia.
        rewrite Z.pow_add_r by lia. reflexivity. }
      assert (P3 : 0 < 2 ^ d2) by (apply Z.pow_pos_nonneg; lia).
      assert (P4 : 0 < 2 ^ (d1 + s - d2 + 1)) by (apply Z.pow_pos_nonneg; lia).
      nia. }
    unfold s in *. lia.
  - assert (q = 0).
    { assert (E1 : 2 ^ (d1 + s) = 2 ^ d1 * 2 ^ s) by (apply Z.pow_add_r; lia).
      assert (2 ^ (d1 + s) <= 2 ^ (d2 - 1)) by (apply Z.pow_le_mono_r; lia).
      assert (2 * 2 ^ (d2 - 1) = 2 ^ d2).
      { replace d2 with (1 + (d2 - 1)) at 2 by lia.
        rewrite Z.pow_add_r by lia. reflexivity. }
      nia. }
    subst q. cbn [Zdigits2]. lia.
Qed.

Lemma div_fits (x y : spec_float) : mantissa_fits (SFdiv 53 1024 x y).
Proof.
  destruct x as [sx | sx | | sx mx ex], y as [sy | sy | | sy my ey];
    cbn [SFdiv mantissa_fits]; try exact I.
  assert (H := div_core_bounds mx my ex ey).
  destruct (SFdiv_core_binary 53 1024 (Zpos mx) ex (Zpos my) ey) as [[q e'] l].
  apply round_fits. tauto.
Qed.

Lemma div_below (A L : Z) (x : spec_float) (sy : bool) (my : positive)
      (ey : Z) :
  below A x -> L <= Zdigits2 (Zpos my) + ey ->
  -1075 <= A - L <= 970 ->
  below (A - L + 2) (SFdiv 53 1024 x (S754_finite sy my ey)).
Proof.
  intros Hx HL HB.
  destruct x as [sx | sx | | sx mx ex]; try contradiction; cbn [SFdiv];
    [exact I |].
  destruct Hx as [_ Hx].
  assert (H := div_core_bounds mx my ex ey).
  destruct (SFdiv_core_binary 53 1024 (Zpos mx) ex (Zpos my) ey) as [[q e'] l].
  destruct H as [Hq Hd].
  replace (A - L + 2) with (A - L + 1 + 1) by lia.
  apply round_below; lia.
Qed.

Lemma iter_xO (d m : positive) : Zpos (Pos.iter xO m d) = Zpos m * 2 ^ Zpos d.
Proof.
  induction d as [| d IH] using Pos.peano_ind.
  - cbn. lia.
  - rewrite Pos.iter_succ, Pos2Z.inj_xO, IH, Pos2Z.inj_succ.
    rewrite Z.pow_succ_r by lia. lia.
Qed.

(** Aligning to a smaller exponent keeps the value. *)
Lemma shl_align_spec (m : positive) (e e' : Z) :
  let '(m1, e1) := shl_align m e e' in
  e1 = Z.min e e' /\ Zpos m1 = Zpos m * 2 ^ (e - e1).
Proof.
  unfold shl_align. destruct (e' - e) as [| p | p] eqn:E.
  - split; [lia |]. rewrite Z.sub_diag. cbn. lia.
  - split; [lia |]. rewrite Z.sub_diag. cbn. lia.
  - split; [lia |]. rewrite iter_xO. do 2 f_equal. lia.
Qed.

Lemma normalize_fits (z e : Z) (s : bool) :
  mantissa_fits (binary_normalize 53 1024 z e s).
Proof.
  destruct z as [| m | m]; cbn [binary_normalize]; [exact I | |];
    unfold binary_round;
    destruct (shl_align m e _) as [mz ez]; apply round_fits; lia.
Qed.

Lemma normalize_below (z e : Z) (s : bool) (B : Z) :
  Zdigits2 z + e <= B -> -1074 <= B <= 971 ->
  below (B + 1) (binary_normalize 53 1024 z e s).
Proof.
  intros Hd HB.
  assert (Hr : forall sg m, Zdigits2 (Zpos m) + e <= B ->
                 below (B + 1) (binary_round 53 1024 sg m e)).
  { intros sg m Hm. unfold binary_round.
    assert (Ha := shl_align_spec m e
                    (fexp 53 1024 (Zpos (digits2_pos m) + e))).
    destruct (shl_align m e _) as [mz ez]. destruct Ha as [He Hz].
    apply round_below; try lia.
    assert (G := Zdigits2_gt (Zpos m) ltac:(lia)).
    assert (N := Zdigits2_nonneg (Zpos m)).
    assert (Zdigits2 (Zpos mz) <= Zdigits2 (Zpos m) + (e - ez)).
    { apply Zdigits2_le; try lia.
      rewrite Hz, Z.pow_add_r by lia.
      assert (0 < 2 ^ (e - ez)) by (apply Z.pow_pos_nonneg; lia). nia. }
    lia. }
  destruct z as [| m | m]; cbn [binary_normalize]; [exact I | |];
    apply Hr; exact Hd.
Qed.

Lemma Zdigits2_abs_sum (a b k : Z) :
  0 <= k -> 0 <= a < 2 ^ k -> 0 <= b < 2 ^ k ->
  forall z, Z.abs z <= a + b -> Zdigits2 z <= k + 1.
Proof.
  intros Hk Ha Hb z Hz.
  assert (E : Zdigits2 z = Zdigits2 (Z.abs z)) by (destruct z; reflexivity).
  rewrite E. apply Zdigits2_le; try lia.
  rewrite Z.pow_add_r by lia. lia.
Qed.

Lemma sub_below (A B : Z) (x y : spec_float) :
  below A x -> below B y -> -1075 <= Z.max A B <= 970 ->
  below (Z.max A B + 2) (SFsub 53 1024 x y).
Proof.
  intros Hx Hy HB.
  destruct x as [sx | sx | | sx mx ex]; try contradiction;
    destruct y as [sy | sy | | sy my ey]; try contradiction; cbn [SFsub].
  - destruct sx, sy; exact I.
  - cbn [below] in *. lia.
  - cbn [below] in *. lia.
  - destruct Hx as [_ Hx], Hy as [_ Hy].
    set (ez := Z.min ex ey).
    assert (Ax := shl_align_spec mx ex ez).
    assert (Ay := shl_align_spec my ey ez).
    destruct (shl_align mx ex ez) as [ax e1].
    destruct (shl_align my ey ez) as [ay e2].
    destruct Ax as [E1 Vx], Ay as [E2 Vy]. cbn [fst].
    replace (Z.max A B + 2) with (Z.max A B + 1 + 1) by lia.
    apply normalize_below; [| lia].
    set (k := Z.max A B - ez).
    assert (Gx := Zdigits2_gt (Zpos mx) ltac:(lia)).
    assert (Gy := Zdigits2_gt (Zpos my) ltac:(lia)).
    assert (Nx := Zdigits2_nonneg (Zpos mx)).
    assert (Ny := Zdigits2_nonneg (Zpos my)).
    assert (N1 : 1 <= Zdigits2 (Zpos mx)) by (cbn; lia).
    assert (Hk : 0 <= k) by (unfold k, ez; lia).
    assert (Bx : Zpos ax < 2 ^ k).
    { rewrite Vx.
      apply Z.lt_le_trans with (2 ^ Zdigits2 (Zpos mx) * 2 ^ (ex - e1)).
      - apply Z.mul_lt_mono_pos_r; [apply Z.pow_pos_nonneg; lia | exact Gx].
      - rewrite <- Z.pow_add_r by lia. apply Z.pow_le_mono_r; unfold k; lia. }
    assert (By : Zpos ay < 2 ^ k).
    { rewrite Vy.
      apply Z.lt_le_trans with (2 ^ Zdigits2 (Zpos my) * 2 ^ (ey - e2)).
      - apply Z.mul_lt_mono_pos_r; [apply Z.pow_pos_nonneg; lia | exact Gy].
      - rewrite <- Z.pow_add_r by lia. apply Z.pow_le_mono_r; unfold k; lia. }
    assert (Zdigits2 (cond_Zopp sx (Zpos ax) - cond_Zopp sy (Zpos ay))
            <= k + 1).
    { apply (Zdigits2_abs_sum (Zpos ax) (Zpos ay) k); try lia.
      destruct sx, sy; cbn [cond_Zopp]; lia. }
    unfold k in *. lia.
Qed.

Lemma Zdigits2_unique (m d : Z) :
  0 < d -> 2 ^ (d - 1) <= m < 2 ^ d -> Zdigits2 m = d.
Proof.
  intros Hd [Hlo Hhi].
  assert (Hm : 0 < m).
  { assert (0 < 2 ^ (d - 1)) by (apply Z.pow_pos_nonneg; lia). lia. }
  assert (U := Zdigits2_le m d ltac:(lia) ltac:(lia) Hhi).
  assert (G := Zdigits2_ge m Hm).
  assert (L := Zdigits2_gt m ltac:(lia)).
  assert (N := Zdigits2_nonneg m).
  destruct (Z_lt_le_dec (Zdigits2 m) d) as [Hlt | Hge]; [| lia].
  exfalso.
  assert (2 ^ Zdigits2 m <= 2 ^ (d - 1)) by (apply Z.pow_le_mono_r; lia).
  lia.
Qed.

Lemma Zdigits2_shift (m k : Z) :
  0 < m -> 0 <= k -> Zdigits2 (m * 2 ^ k) = Zdigits2 m + k.
Proof.
  intros Hm Hk.
  assert (G := Zdigits2_ge m Hm).
  assert (L := Zdigits2_gt m ltac:(lia)).
  assert (N : 1 <= Zdigits2 m) by (destruct m; cbn; lia).
  assert (P : 0 < 2 ^ k) by (apply Z.pow_pos_nonneg; lia).
  apply Zdigits2_unique; [lia |].
  replace (Zdigits2 m + k - 1) with (Zdigits2 m - 1 + k) by lia.
  rewrite !Z.pow_add_r by lia. nia.
Qed.

(** An integer below [2 ^ 53] converts exactly, to a normalised mantissa. *)
Lemma float_of_Z_exact (n : Z) :
  0 < n < 2 ^ 53 ->
  exists m : positive,
    Zpos m = n * 2 ^ (53 - Zdigits2 n)
    /\ float_of_Z n = S754_finite false m (Zdigits2 n - 53).
Proof.
  intros [Hn Hlt]. destruct n as [| p | p]; try lia.
  set (d := Zdigits2 (Zpos p)).
  assert (Hd1 : 1 <= d) by (unfold d; cbn; lia).
  assert (Hd53 : d <= 53) by (apply Zdigits2_le; lia).
  unfold float_of_Z, binary_normalize, binary_round, prec, emax.
  assert (Ha := shl_align_spec p 0 (fexp 53 1024 (Zpos (digits2_pos p) + 0))).
  destruct (shl_align p 0 _) as [mz ez]. destruct Ha as [He Hz].
  change (Zpos (digits2_pos p)) with d in He.
  assert (Hez : ez = d - 53) by (unfold fexp, emin in He; lia).
  rewrite Hez in *. replace (0 - (d - 53)) with (53 - d) in Hz by lia.
  assert (Hdz : Zdigits2 (Zpos mz) = 53).
  { rewrite Hz, Zdigits2_shift by lia. fold d. lia. }
  destruct (binary_round_aux_anatomy false (Zpos mz) (d - 53) loc_Exact
              ltac:(lia)) as (m2 & _ & _ & _ & Hex & Hres).
  rewrite Hdz in Hres, Hex.
  assert (E1 : Z.max (d - 53) (fexp 53 1024 (53 + (d - 53))) = d - 53)
    by (unfold fexp, emin; lia).
  rewrite E1 in Hres, Hex.
  assert (Hm2 : m2 = Zpos mz).
  { apply (Hex eq_refl); [lia |]. rewrite Z.sub_diag. cbn. lia. }
  subst m2.
  destruct (binary_round_aux 53 1024 false (Zpos mz) (d - 53) loc_Exact)
    as [s0 | s0 | | s0 m e] eqn:E.
  - discriminate Hres.
  - lia.
  - contradiction.
  - destruct Hres as [-> [(_ & Hm & He') | (H53 & _)]].
    + exists m. fold d. split; [lia |]. now rewrite He'.
    + assert (G := Zdigits2_gt (Zpos mz) ltac:(lia)). rewrite Hdz in G. lia.
Qed.

Lemma pow2_split (a b : Z) : 0 <= a -> 0 <= b -> 2 ^ (a + b) = 2 ^ a * 2 ^ b.
Proof. intros. apply Z.pow_add_r; assumption. Qed.

(** [math.ceil] of what a rounding returned, read off its anatomy: the
    ceiling of [m2 * 2 ^ e1] for a kept mantissa [m2 > 0] at a negative
    exponent [e1]. *)
Lemma ceil_of_rounded (x : float) (m2 e1 K : Z) :
  0 < m2 -> e1 <= -2 -> K <= 971 ->
  match x with
  | S754_zero _ => m2 = 0
  | S754_finite s' m e =>
      s' = false
      /\ ((Zdigits2 m2 <= 53 /\ Zpos m = m2 /\ e = e1)
          \/ (m2 = 2 ^ 53 /\ Zpos m = 2 ^ 52 /\ e = e1 + 1 /\ K = e1 + 53))
  | S754_infinity _ => 971 < K
  | S754_nan => False
  end ->
  ceil_of_float x = Ok (- ((- m2) / 2 ^ (- e1))).
Proof.
  intros Hm Hw HK Hx.
  destruct x as [s0 | s0 | | s0 m e]; try contradiction; try lia.
  destruct Hx as [-> [(_ & Hv & ->) | (Hv & Hm3 & -> & _)]];
    unfold ceil_of_float.
  - destruct e1 as [| p | p] eqn:E; try lia.
    rewrite Hv. reflexivity.
  - destruct (e1 + 1) as [| p | p] eqn:E; try lia.
    rewrite Hm3, Hv. do 2 f_equal.
    replace (- e1) with (Zpos p + 1) by lia.
    rewrite Z.pow_add_r by lia.
    change (- 2 ^ 53) with ((- 2 ^ 52) * 2 ^ 1).
    symmetry. apply Z.div_mul_cancel_r; lia.
Qed.

Lemma ceil_between (m2 w k : Z) :
  0 <= w -> (k - 1) * 2 ^ w < m2 <= k * 2 ^ w ->
  - ((- m2) / 2 ^ w) = k.
Proof.
  intros Hw H.
  assert (P : 0 < 2 ^ w) by (apply Z.pow_pos_nonneg; lia).
  assert (E : (- m2) / 2 ^ w = - k); [| lia].
  symmetry. apply Z.div_unique with (k * 2 ^ w - m2); lia.
Qed.

Lemma new_location_zero (nb : Z) : new_location nb 0 = loc_Exact.
Proof.
  unfold new_location, new_location_even, new_location_odd.
  destruct (Z.even nb); reflexivity.
Qed.

(** The quotient and remainder computed for two normalised mantissas. *)
Lemma div_core_normal (mx my : positive) (ex ey : Z) :
  Zdigits2 (Zpos mx) = 53 -> Zdigits2 (Zpos my) = 53 ->
  -1000 <= ex - ey <= 1000 ->
  SFdiv_core_binary 53 1024 (Zpos mx) ex (Zpos my) ey
  = (Zpos mx * 2 ^ 53 / Zpos my, ex - ey - 53,
     new_location (Zpos my) ((Zpos mx * 2 ^ 53) mod Zpos my)).
Proof.
  intros Hx Hy He. unfold SFdiv_core_binary. rewrite Hx, Hy.
  replace (Z.min (fexp 53 1024 (53 + ex - (53 + ey))) (ex - ey))
    with (ex - ey - 53) by (unfold fexp, emin; lia).
  replace (ex - ey - (ex - ey - 53)) with 53 by lia.
  rewrite Z.shiftl_mul_pow2 by lia.
  unfold Z.div, Z.modulo.
  destruct (Z.div_eucl (Zpos mx * 2 ^ 53) (Zpos my)) as [q r].
  reflexivity.
Qed.

Lemma square_lt_succ (a b : Z) :
  0 <= a -> 0 <= b -> a * a < (b + 1) * (b + 1) -> a <= b.
Proof. intros Ha Hb H. nia. Qed.

(** The root and remainder computed for a normalised mantissa. *)
Lemma sqrt_core_normal (mx : positive) (ex : Z) :
  Zdigits2 (Zpos mx) = 53 -> -1000 <= ex <= 1000 ->
  let h := (53 + ex + 1) / 2 in
  let s := ex - 2 * (h - 53) in
  let q := fst (Z.sqrtrem (Zpos mx * 2 ^ s)) in
  let r := snd (Z.sqrtrem (Zpos mx * 2 ^ s)) in
  52 <= s <= 53
  /\ SFsqrt_core_binary 53 1024 (Zpos mx) ex
     = (q, h - 53,
        if r =? 0 then loc_Exact
        else loc_Inexact (if r <=? q then Lt else Gt)).
Proof.
  intros Hx He h s q r.
  assert (Hh := Z.div_mod (53 + ex + 1) 2 ltac:(lia)).
  assert (Hm := Z.mod_pos_bound (53 + ex + 1) 2 ltac:(lia)).
  fold h in Hh.
  assert (Hh2 := Z.div_mod ex 2 ltac:(lia)).
  assert (Hm2 := Z.mod_pos_bound ex 2 ltac:(lia)).
  assert (Hs : 52 <= s <= 53) by (unfold s; lia).
  split; [exact Hs |].
  unfold SFsqrt_core_binary. rewrite Hx, !Z.div2_div. fold h.
  replace (Z.min (fexp 53 1024 h) (ex / 2)) with (h - 53)
    by (unfold fexp, emin; lia).
  fold s. unfold q, r.
  destruct s as [| p | p]; try lia.
  rewrite Z.shiftl_mul_pow2 by lia.
  destruct (Z.sqrtrem (Zpos mx * 2 ^ Zpos p)) as [q0 r0]. reflexivity.
Qed.

End FloatFacts.

(** ** The grid plan *)

Module GridFacts.
Import PyNum Grid FloatFacts.

Lemma ceil_sqrt_spec (n : Z) :
  0 < n ->
  let c := ceil_sqrt n in
  0 < c /\ (c - 1) * (c - 1) < n <= c * c.
Proof.
  intros Hn. unfold ceil_sqrt. cbv zeta.
  assert (Hs := Z.sqrt_spec n (Z.lt_le_incl _ _ Hn)). cbv zeta in Hs.
  assert (Hp := Z.sqrt_nonneg n).
  destruct (Z.eqb_spec (Z.sqrt n * Z.sqrt n) n) as [E | E].
  - assert (0 < Z.sqrt n) by nia. nia.
  - nia.
Qed.

Lemma ceil_div_spec (n d : Z) :
  0 < d ->
  let r := ceil_div n d in
  (r - 1) * d < n <= r * d.
Proof.
  intros Hd. unfold ceil_div. cbv zeta.
  assert (Hm := Z.mod_pos_bound (- n) d Hd).
  assert (Hq := Z.div_mod (- n) d ltac:(lia)).
  nia.
Qed.

Lemma grid_columns_pos (n : Z) : 0 < n -> 0 < grid_columns n.
Proof.
  intros Hn. unfold grid_columns.
  destruct (n <=? 4); [lia |].
  destruct (n <=? 9); [lia |].
  destruct (n <=? 16); [lia |].
  apply (ceil_sqrt_spec n Hn).
Qed.

Lemma grid_rows_bounds (n : Z) :
  0 < n ->
  let c := grid_columns n in
  let r := grid_rows n c in
  0 < r /\ (r - 1) * c < n <= r * c.
Proof.
  intros Hn. cbv zeta.
  assert (Hc := grid_columns_pos n Hn).
  assert (Hr := ceil_div_spec n (grid_columns n) Hc). cbv zeta in Hr.
  unfold grid_rows. split; [nia | exact Hr].
Qed.

(** The grid always has room for every image. *)
Lemma grid_capacity (n : Z) :
  0 < n -> n <= grid_rows n (grid_columns n) * grid_columns n.
Proof. intros Hn. apply (grid_rows_bounds n Hn). Qed.

(** [math.ceil(math.sqrt(n))], computed in binary64 as the source does, is
    the exact ceiling of the square root, for all positive integers below
    [2 ^ 31]. *)
Lemma ceil_sqrt_double_exact (n : Z) :
  0 < n < 2 ^ 31 -> ceil_sqrt_double n = Ok (ceil_sqrt n).
Proof.
  intros [Hn0 Hn].
  assert (Hk := ceil_sqrt_spec n Hn0). cbv zeta in Hk.
  set (k := ceil_sqrt n) in *. destruct Hk as [Hk0 Hk].
  change (2 ^ 31) with 2147483648 in Hn.
  assert (Hk16 : k <= 65536) by nia.
  unfold ceil_sqrt_double.
  destruct (float_of_Z_exact n) as (mn & Hmn & ->).
  { split; [lia |]. apply Z.lt_trans with (2 ^ 31); [exact Hn | reflexivity]. }
  set (dn := Zdigits2 n) in *.
  assert (Hdn1 : 1 <= dn) by (unfold dn; destruct n; cbn; lia).
  assert (Hdn31 : dn <= 31) by (apply Zdigits2_le; lia).
  assert (Dmn : Zdigits2 (Zpos mn) = 53)
    by (rewrite Hmn, Zdigits2_shift by lia; fold dn; lia).
  unfold fsqrt, SFsqrt, prec, emax.
  destruct (sqrt_core_normal mn (dn - 53) Dmn ltac:(lia)) as [Hs ->].
  replace (53 + (dn - 53) + 1) with (dn + 1) in * by lia.
  set (h := (dn + 1) / 2) in *.
  assert (Hh := Z.div_mod (dn + 1) 2 ltac:(lia)). fold h in Hh.
  assert (Hhm := Z.mod_pos_bound (dn + 1) 2 ltac:(lia)).
  set (s := dn - 53 - 2 * (h - 53)) in *.
  set (w := 53 - h).
  assert (Hw : 37 <= w <= 52) by (unfold w; lia).
  assert (Pw : 0 < 2 ^ w) by (apply Z.pow_pos_nonneg; lia).
  assert (Pw37 : 2 ^ 37 <= 2 ^ w) by (apply Z.pow_le_mono_r; lia).
  change (2 ^ 37) with 137438953472 in Pw37.
  assert (Hm' : Zpos mn * 2 ^ s = n * (2 ^ w * 2 ^ w)).
  { rewrite Hmn, <- Z.mul_assoc, <- !pow2_split by (unfold w, s; lia).
    do 2 f_equal. unfold s, w. lia. }
  rewrite Hm' in *.
  assert (Hsq := Z.sqrtrem_spec (n * (2 ^ w * 2 ^ w)) ltac:(nia)).
  destruct (Z.sqrtrem (n * (2 ^ w * 2 ^ w))) as [q r]. cbn [fst snd].
  destruct Hsq as [Hqr Hr].
  set (W := 2 ^ w) in *.
  (* the root has 53 bits *)
  assert (Gn := Zdigits2_ge n Hn0). fold dn in Gn.
  assert (Ln := Zdigits2_gt n ltac:(lia)). fold dn in Ln.
  assert (HW52 : W <= 2 ^ 52) by (apply Z.pow_le_mono_r; lia).
  assert (Hq0 : 0 <= q) by nia.
  assert (Hnw_lo : 2 ^ 104 <= n * (W * W)).
  { apply Z.le_trans with (2 ^ (dn - 1) * (W * W)); [| nia].
    unfold W. rewrite <- !pow2_split by lia.
    apply Z.pow_le_mono_r; unfold w; lia. }
  assert (Hnw_hi : n * (W * W) < 2 ^ 106).
  { apply Z.lt_le_trans with (2 ^ dn * (W * W)); [nia |].
    unfold W. rewrite <- !pow2_split by lia.
    apply Z.pow_le_mono_r; unfold w; lia. }
  change (2 ^ 104) with (4503599627370496 * 4503599627370496) in Hnw_lo.
  change (2 ^ 106) with (9007199254740992 * 9007199254740992) in Hnw_hi.
  change (2 ^ 52) with 4503599627370496 in HW52.
  assert (Hq_lo : 4503599627370496 <= q) by nia.
  assert (Hq_hi : q < 9007199254740992) by nia.
  assert (Hdq : Zdigits2 q = 53).
  { apply Zdigits2_unique; [lia |].
    change (2 ^ (53 - 1)) with 4503599627370496.
    change (2 ^ 53) with 9007199254740992. lia. }
  set (lz := if r =? 0 then loc_Exact
             else loc_Inexact (if r <=? q then Lt else Gt)).
  destruct (binary_round_aux_anatomy false q (h - 53) lz ltac:(lia))
    as (m2 & Hm2 & _ & HK & Hex & Hres).
  rewrite Hdq in Hm2, HK, Hex, Hres.
  assert (E1 : Z.max (h - 53) (fexp 53 1024 (53 + (h - 53))) = - w)
    by (unfold fexp, emin, w; lia).
  rewrite E1 in Hm2, HK, Hex, Hres.
  replace (- w - (h - 53)) with 0 in Hm2, Hex by (unfold w; lia).
  change (2 ^ 0) with 1 in Hm2, Hex. rewrite Z.div_1_r in Hm2.
  assert (Hbetween : (k - 1) * W < m2 <= k * W).
  { destruct (Z.eq_dec n (k * k)) as [Eq | Ne].
    - assert (Hq : q = k * W) by nia.
      assert (Hr0 : r = 0) by nia.
      unfold lz in Hex. rewrite Hr0 in Hex. cbn [Z.eqb] in Hex.
      rewrite (Hex eq_refl q Hq0 ltac:(lia)). nia.
    - assert (Hlt : n < k * k) by lia.
      assert (q < k * W) by nia.
      assert ((k - 1) * W + 1 <= q).
      { assert (((k - 1) * W + 1) * ((k - 1) * W + 1) <= n * (W * W)).
        { assert ((k - 1) * (k - 1) + 1 <= n) by lia.
          assert (2 * ((k - 1) * W) + 1 <= W * W) by nia.
          nia. }
        apply square_lt_succ; [| exact Hq0 | lia].
        apply Z.add_nonneg_nonneg; [apply Z.mul_nonneg_nonneg; lia | lia]. }
      lia. }
  assert (Hm2pos : 0 < m2) by nia.
  rewrite (ceil_of_rounded _ m2 (- w) (Z.max (53 + (h - 53)) (-1074)) Hm2pos
             ltac:(lia) ltac:(lia) Hres).
  rewrite Z.opp_involutive. f_equal. apply ceil_between; [lia | exact Hbetween].
Qed.

Lemma scaled_lower (k c n W : Z) :
  0 < c <= W -> (k - 1) * c + 1 <= n -> c * ((k - 1) * W + 1) <= n * W.
Proof. intros Hc Hn. nia. Qed.

Lemma scaled_upper (k c n W : Z) :
  0 < W -> n < k * c -> n * W < c * (k * W).
Proof. intros HW Hn. nia. Qed.

(** [math.ceil(n / c)], computed in binary64 as the source does, is the
    exact ceiling, for all positive integers below [2 ^ 31]. *)
Lemma ceil_div_double_exact (n c : Z) :
  0 < n < 2 ^ 31 -> 0 < c < 2 ^ 31 ->
  ceil_div_double n c = Ok (ceil_div n c).
Proof.
  intros [Hn0 Hn] [Hc0 Hc].
  assert (Hk := ceil_div_spec n c Hc0). cbv zeta in Hk.
  set (k := ceil_div n c) in *.
  assert (Hk0 : 0 < k) by nia.
  unfold ceil_div_double.
  destruct (float_of_Z_exact n) as (mn & Hmn & ->).
  { split; [lia |]. apply Z.lt_trans with (2 ^ 31); [exact Hn | reflexivity]. }
  destruct (float_of_Z_exact c) as (mc & Hmc & ->).
  { split; [lia |]. apply Z.lt_trans with (2 ^ 31); [exact Hc | reflexivity]. }
  set (dn := Zdigits2 n) in *. set (dc := Zdigits2 c) in *.
  assert (Hdn1 : 1 <= dn) by (unfold dn; destruct n; cbn; lia).
  assert (Hdn31 : dn <= 31) by (apply Zdigits2_le; lia).
  assert (Hdc1 : 1 <= dc) by (unfold dc; destruct c; cbn; lia).
  assert (Hdc31 : dc <= 31) by (apply Zdigits2_le; lia).
  assert (Dmn : Zdigits2 (Zpos mn) = 53)
    by (rewrite Hmn, Zdigits2_shift by lia; fold dn; lia).
  assert (Dmc : Zdigits2 (Zpos mc) = 53)
    by (rewrite Hmc, Zdigits2_shift by lia; fold dc; lia).
  unfold fdiv, SFdiv, prec, emax.
  rewrite (div_core_normal mn mc (dn - 53) (dc - 53) Dmn Dmc)  by lia.
  cbn [xorb].
  set (q := Zpos mn * 2 ^ 53 / Zpos mc).
  set (r := (Zpos mn * 2 ^ 53) mod Zpos mc).
  set (e' := dn - 53 - (dc - 53) - 53).
  (* the quotient has 53 or 54 bits *)
  assert (Gn := Zdigits2_ge (Zpos mn) ltac:(lia)).
  assert (Ln := Zdigits2_gt (Zpos mn) ltac:(lia)).
  assert (Gc := Zdigits2_ge (Zpos mc) ltac:(lia)).
  assert (Lc := Zdigits2_gt (Zpos mc) ltac:(lia)).
  rewrite Dmn in Gn, Ln. rewrite Dmc in Gc, Lc.
  change (2 ^ (53 - 1)) with 4503599627370496 in *.
  change (2 ^ 53) with 9007199254740992 in *.
  assert (Hq_lo : 4503599627370496 <= q).
  { apply Z.div_le_lower_bound; lia. }
  assert (Hq_hi : q < 2 ^ 54).
  { apply Z.div_lt_upper_bound; [lia |].
    change (2 ^ 54) with 18014398509481984. lia. }
  set (dq := Zdigits2 q).
  assert (Hdq : 53 <= dq <= 54).
  { split.
    - change 53 with (Zdigits2 4503599627370496).
      apply Zdigits2_mono. lia.
    - apply Zdigits2_le; lia. }
  set (t := dq - 53).
  set (w := 53 - (dn - dc) - t).
  assert (Hw : dc + 21 <= w <= 84) by (unfold w, t; lia).
  destruct (binary_round_aux_anatomy false q e' (new_location (Zpos mc) r)
              ltac:(lia)) as (m2 & Hm2 & _ & HK & Hex & Hres).
  fold dq in Hm2, HK, Hex, Hres.
  assert (E1 : Z.max e' (fexp 53 1024 (dq + e')) = - w)
    by (unfold fexp, emin, e', w, t; lia).
  rewrite E1 in Hm2, HK, Hex, Hres.
  replace (- w - e') with t in Hm2, Hex by (unfold w, e'; lia).
  (* the first shift leaves the floor of [n * 2^w / c] *)
  assert (P53dc : 0 < 2 ^ (53 - dc + t))
    by (apply Z.pow_pos_nonneg; unfold t; lia).
  assert (Hnum : Zpos mn * 9007199254740992 = (n * 2 ^ w) * 2 ^ (53 - dc + t)).
  { rewrite Hmn. change 9007199254740992 with (2 ^ 53).
    rewrite <- !Z.mul_assoc, <- !pow2_split by (unfold w, t; lia).
    do 2 f_equal. unfold w. lia. }
  assert (Hden : Zpos mc * 2 ^ t = c * 2 ^ (53 - dc + t)).
  { rewrite Hmc, <- Z.mul_assoc, <- pow2_split by (unfold t; lia).
    reflexivity. }
  assert (Hm1 : q / 2 ^ t = n * 2 ^ w / c).
  { unfold q. rewrite Z.div_div by (try apply Z.pow_pos_nonneg; unfold t; lia).
    rewrite Hnum, Hden. apply Z.div_mul_cancel_r; lia. }
  rewrite Hm1 in Hm2.
  assert (Pw : 0 < 2 ^ w) by (apply Z.pow_pos_nonneg; lia).
  assert (Hcw : c < 2 ^ w).
  { assert (G := Zdigits2_gt c ltac:(lia)). fold dc in G.
    assert (2 ^ dc <= 2 ^ w) by (apply Z.pow_le_mono_r; lia). lia. }
  assert (Hbetween : (k - 1) * 2 ^ w < m2 <= k * 2 ^ w).
  { destruct (Z.eq_dec n (k * c)) as [Eq | Ne].
    - (* exact division *)
      assert (Hq : Zpos mn * 9007199254740992
                   = (k * 2 ^ w * 2 ^ t) * Zpos mc).
      { rewrite Hnum, Eq.
        replace (k * 2 ^ w * 2 ^ t * Zpos mc)
          with (k * 2 ^ w * (Zpos mc * 2 ^ t)) by ring.
        rewrite Hden. ring. }
      assert (Hr0 : r = 0).
      { unfold r. rewrite Hq. apply Z.mod_mul. lia. }
      assert (Hqv : q = k * 2 ^ w * 2 ^ t).
      { unfold q. rewrite Hq. apply Z.div_mul. lia. }
      rewrite Hr0, new_location_zero in Hex.
      rewrite (Hex eq_refl (k * 2 ^ w)
                 ltac:(apply Z.mul_nonneg_nonneg; lia) Hqv). lia.
    - assert (Hlt : n < k * c) by lia.
      assert ((k - 1) * 2 ^ w + 1 <= n * 2 ^ w / c).
      { apply Z.div_le_lower_bound; [lia |].
        apply scaled_lower; lia. }
      assert (n * 2 ^ w / c < k * 2 ^ w).
      { apply Z.div_lt_upper_bound; [lia |].
        apply scaled_upper; lia. }
      lia. }
  assert (Hm2pos : 0 < m2).
  { assert (0 <= (k - 1) * 2 ^ w); [| lia].
    apply Z.mul_nonneg_nonneg; lia. }
  rewrite (ceil_of_rounded _ m2 (- w) (Z.max (dq + e') (-1074)) Hm2pos
             ltac:(lia) ltac:(lia) Hres).
  rewrite Z.opp_involutive. f_equal. apply ceil_between; [lia | exact Hbetween].
Qed.

(** [m0] is the mantissa of the double nearest to 0.2: [5 * m0 = 2^55 + 2]. *)
Lemma fifth_arith (n u m2 : Z) :
  0 <= n < 2 ^ 31 -> 0 <= u <= 31 ->
  n * 7205759403792794 / 2 ^ u <= m2 <= n * 7205759403792794 / 2 ^ u + 1 ->
  m2 / 2 ^ (55 - u) = n / 5.
Proof.
  intros Hn Hu Hm.
  set (P := 2 ^ u) in *. set (Q := 2 ^ (55 - u)).
  assert (HP : 0 < P) by (apply Z.pow_pos_nonneg; lia).
  assert (HQ : 0 < Q) by (apply Z.pow_pos_nonneg; lia).
  assert (HPQ : P * Q = 2 ^ 55).
  { unfold P, Q. rewrite <- Z.pow_add_r by lia. f_equal. lia. }
  assert (HP31 : P <= 2 ^ 31) by (apply Z.pow_le_mono_r; lia).
  change (2 ^ 31) with 2147483648 in *.
  change (2 ^ 55) with 36028797018963968 in *.
  set (a := n * 7205759403792794) in *.
  assert (Hd := Z.div_mod a P ltac:(lia)).
  assert (Hr := Z.mod_pos_bound a P HP).
  set (m1 := a / P) in *.
  assert (Hq := Z.div_mod n 5 ltac:(lia)).
  assert (Hq5 := Z.mod_pos_bound n 5 ltac:(lia)).
  set (q := n / 5) in *.
  assert (Hq0 : 0 <= q) by (apply Z.div_pos; lia).
  assert (Lo : q * Q <= m1).
  { assert (P * (q * Q) < P * (m1 + 1)); [| nia].
    replace (P * (q * Q)) with (q * (P * Q)) by ring. rewrite HPQ.
    unfold a in *. lia. }
  assert (Hi : m1 + 1 < (q + 1) * Q).
  { assert (P * (m1 + 1) < P * ((q + 1) * Q)); [| nia].
    replace (P * ((q + 1) * Q)) with ((q + 1) * (P * Q)) by ring. rewrite HPQ.
    unfold a in *. lia. }
  symmetry. apply Z.div_unique with (m2 - q * Q); lia.
Qed.

(** [int(n * 0.20)], computed in binary64 as the source does, is the exact
    fifth of [n] rounded down, for every size a raster can have. *)
Lemma int_fifth_double_exact (n : Z) :
  0 <= n < 2 ^ 31 -> int_fifth_double n = Ok (int_fifth n).
Proof.
  intros [Hn0 Hn]. unfold int_fifth. rewrite Z.quot_div_nonneg by lia.
  destruct (Z.eq_dec n 0) as [-> | Hnz]; [reflexivity |].
  unfold int_fifth_double.
  change (float_of_string "0.20")
    with (Ok (S754_finite false 7205759403792794 (-55))).
  destruct (float_of_Z_exact n) as (m & Hm & ->).
  { split; [lia |]. apply Z.lt_trans with (2 ^ 31); [exact Hn | reflexivity]. }
  set (d := Zdigits2 n) in *.
  assert (Hd1 : 1 <= d) by (unfold d; destruct n; cbn; lia).
  assert (Hd31 : d <= 31) by (apply Zdigits2_le; lia).
  unfold fmul, SFmul, prec, emax. cbn [xorb].
  set (a := n * 7205759403792794).
  assert (Ha : 0 < a) by (unfold a; lia).
  set (Dn := Zdigits2 a).
  assert (HDn_lo : 53 <= Dn).
  { change 53 with (Zdigits2 7205759403792794).
    apply Zdigits2_mono. unfold a. lia. }
  assert (HDn_hi : Dn <= 84).
  { apply Zdigits2_le; unfold a; lia. }
  assert (HDn_d : d <= Dn) by (apply Zdigits2_mono; unfold a; lia).
  assert (Hmx : Zpos (m * 7205759403792794) = a * 2 ^ (53 - d)).
  { rewrite Pos2Z.inj_mul, Hm. unfold a. ring. }
  assert (HD : Zdigits2 (Zpos (m * 7205759403792794)) = Dn + (53 - d)).
  { rewrite Hmx. apply Zdigits2_shift; lia. }
  destruct (binary_round_aux_anatomy false (Zpos (m * 7205759403792794))
              (d - 53 + -55) loc_Exact ltac:(lia))
    as (m2 & Hm2 & _ & HK & _ & Hres).
  rewrite HD in Hm2, HK, Hres.
  assert (E1 : Z.max (d - 53 + -55)
                 (fexp 53 1024 (Dn + (53 - d) + (d - 53 + -55)))
               = Dn - 108) by (unfold fexp, emin; lia).
  rewrite E1 in Hm2, HK, Hres.
  set (u := Dn - 53).
  assert (Hm1 : Zpos (m * 7205759403792794) / 2 ^ (Dn - 108 - (d - 53 + -55))
                = a / 2 ^ u).
  { rewrite Hmx.
    replace (Dn - 108 - (d - 53 + -55)) with (u + (53 - d)) by (unfold u; lia).
    rewrite Z.pow_add_r by (unfold u; lia).
    apply Z.div_mul_cancel_r; apply Z.pow_nonzero; unfold u; lia. }
  rewrite Hm1 in Hm2.
  assert (Hfifth := fifth_arith n u m2 ltac:(lia) ltac:(unfold u; lia) Hm2).
  assert (Hpos : 0 < a / 2 ^ u).
  { apply Z.div_str_pos. split; [apply Z.pow_pos_nonneg; unfold u; lia |].
    assert (G := Zdigits2_ge a Ha). fold Dn in G.
    apply Z.le_trans with (2 ^ (Dn - 1)); [| exact G].
    apply Z.pow_le_mono_r; unfold u; lia. }
  destruct (binary_round_aux 53 1024 false (Zpos (m * 7205759403792794))
              (d - 53 + -55) loc_Exact) as [s0 | s0 | | s0 m3 e3].
  - lia.
  - lia.
  - contradiction.
  - destruct Hres as [-> [(_ & Hv & ->) | (Hv & Hm3 & -> & _)]];
      unfold int_of_float.
    + destruct (Dn - 108) as [| p | p] eqn:Ee; try lia.
      rewrite Hv, <- Hfifth. do 3 f_equal. unfold u. lia.
    + destruct (Dn - 108 + 1) as [| p | p] eqn:Ee; try lia.
      rewrite Hm3, <- Hfifth, Hv. f_equal.
      replace (55 - u) with (Zpos p + 1) by (unfold u; lia).
      rewrite Z.pow_add_r by lia.
      change (2 ^ 53) with (2 ^ 52 * 2 ^ 1).
      symmetry. apply Z.div_mul_cancel_r; lia.
Qed.

(** The double arithmetic of the source gives the same plan. *)
Lemma grid_plan_double (n : Z) :
  0 < n < 2 ^ 31 ->
  grid_columns_double n = Ok (grid_columns n)
  /\ grid_rows_double n (grid_columns n) = Ok (grid_rows n (grid_columns n)).
Proof.
  intros [Hn0 Hn].
  assert (Hc := grid_columns_pos n Hn0).
  assert (Hs := ceil_sqrt_spec n Hn0). cbv zeta in Hs.
  assert (Hcn : grid_columns n < 2 ^ 31).
  { change (2 ^ 31) with 2147483648 in *. unfold grid_columns in *.
    repeat match goal with
           | |- context [?a <=? ?b] => destruct (Z.leb_spec a b)
           end; try lia. nia. }
  split.
  - unfold grid_columns_double, grid_columns.
    repeat match goal with
           | |- context [?a <=? ?b] => destruct (Z.leb_spec a b)
           end; try reflexivity.
    apply ceil_sqrt_double_exact. lia.
  - unfold grid_rows_double, grid_rows.
    apply ceil_div_double_exact; lia.
Qed.

(** C1. For a positive image count [n], the plan has 2 columns up to 4
    images, 3 up to 9, 4 up to 16 and the ceiling of the square root of
    [n] beyond (the least [c] with [n <= c * c]); the rows are the ceiling
    of [n / columns] (the least [r] with [n <= r * columns]).  For counts
    below [2 ^ 31] the double arithmetic of the source computes exactly
    these columns and rows.  The plans for 1, 4, 9 and 10 images are
    (2,1), (2,2), (3,3) and (4,3). *)
Theorem grid_plan (n : Z) :
  0 < n ->
  let columns := grid_columns n in
  let rows := grid_rows n columns in
  (n <= 4 -> columns = 2)
  /\ (5 <= n <= 9 -> columns = 3)
  /\ (10 <= n <= 16 -> columns = 4)
  /\ (16 < n ->
      columns = ceil_sqrt n
      /\ (columns - 1) * (columns - 1) < n <= columns * columns)
  /\ rows = ceil_div n columns
  /\ (rows - 1) * columns < n <= rows * columns
  /\ (n < 2 ^ 31 ->
      grid_columns_double n = Ok columns
      /\ grid_rows_double n columns = Ok rows)
  /\ (grid_columns 1, grid_rows 1 (grid_columns 1)) = (2, 1)
  /\ (grid_columns 4, grid_rows 4 (grid_columns 4)) = (2, 2)
  /\ (grid_columns 9, grid_rows 9 (grid_columns 9)) = (3, 3)
  /\ (grid_columns 10, grid_rows 10 (grid_columns 10)) = (4, 3).
Proof.
  intros Hn. cbv zeta.
  assert (Hr := grid_rows_bounds n Hn). cbv zeta in Hr.
  assert (Hs := ceil_sqrt_spec n Hn). cbv zeta in Hs.
  repeat split; try reflexivity; try (apply Hr); try (apply Hs);
    try (intros; apply grid_plan_double; lia);
    unfold grid_columns in *; intros;
    repeat match goal with
      | |- context [?a <=? ?b] => destruct (Z.leb_spec a b)
      end; try lia; try (apply Hs).
Qed.

Lemma grid_plan_witness :
  let columns := grid_columns 20 in
  let rows := grid_rows 20 columns in
  columns = 5 /\ rows = 4 /\ 16 < 20 <= 25.
Proof.
  cbv zeta.
  destruct (grid_plan 20 ltac:(lia)) as (_ & _ & _ & H & _).
  destruct (H ltac:(lia)) as [_ Hb].
  repeat split; try reflexivity; lia.
Defined.

End GridFacts.

(** ** The info band *)

Module BandFacts.
Import Grid Raster Banner.



Section Splice.
Variable blend : Pixel -> Pixel -> Z -> Pixel.
Variable draw_band : Z -> Z -> Z -> RGB -> Z -> Z -> Pixel.

Let render := add_info_band blend draw_band.

Lemma add_info_band_size (image : Image) (file_count : Z) (color : RGB) :
  size (render image file_count color) = size image.
Proof. reflexivity. Qed.

End Splice.



End BandFacts.

(** ** Composition: loading, padding, placement *)

Module ComposeFacts.
Import Grid Raster Banner GridFacts.





Section Facts.
Variable blend : Pixel -> Pixel -> Z -> Pixel.
Variable over : Pixel -> Pixel -> Pixel.
Variable resample : Image -> Z -> Z -> Z -> Z -> Pixel.
Variable open_image : string -> option Image.
Variable thumbnail : Image -> Z -> Z -> option Image.
Variable draw_band : Z -> Z -> Z -> RGB -> Z -> Z -> Pixel.

Let load := load_images open_image thumbnail.
Let finish' := finish blend over resample draw_band.
Let place := place_images blend.

Lemma load_images_length (paths : list string) (w h : Z) :
  (List.length (fst (load paths w h)) <= List.length paths)%nat.
Proof.
  unfold load. induction paths as [| p ps IH]; cbn; [lia |].
  destruct (load_images open_image thumbnail ps w h) as [imgs lg].
  destruct (load_image open_image thumbnail p w h); cbn in *; lia.
Qed.

Lemma load_images_all_fail (paths : list string) (w h : Z) :
  (forall p, In p paths -> open_image p = None) ->
  load paths w h = ([], map LoadFailed paths).
Proof.
  unfold load. induction paths as [| p ps IH]; intros Hf; cbn;
    [reflexivity |].
  rewrite IH by (intros q Hq; apply Hf; now right).
  unfold load_image. rewrite (Hf p) by now left. reflexivity.
Qed.

(** Padding an empty pool raises at the first draw. *)
Lemma fill_grid_empty (draws : nat -> nat) (missing k : nat) :
  (0 < missing)%nat ->
  fill_grid draws missing [] k = (Raise IndexError, k).
Proof. destruct missing; [lia | reflexivity]. Qed.

(** Padding a non-empty pool appends [missing] images, each of them
    already in the pool, and takes [missing] draws. *)
Lemma fill_grid_nonempty (draws : nat -> nat) (missing : nat) :
  forall (placed : list Image) (k : nat),
    placed <> [] ->
    exists extra,
      fill_grid draws missing placed k
      = (Ok (placed ++ extra)%list, (k + missing)%nat)
      /\ List.length extra = missing
      /\ Forall (fun img => In img placed) extra.
Proof.
  induction missing as [| m IH]; intros placed k Hne.
  - exists []. cbn. rewrite app_nil_r, Nat.add_0_r. auto.
  - destruct placed as [| d rest]; [congruence |].
    cbn [fill_grid random_choice].
    set (pool := d :: rest).
    set (img := nth (draws k mod List.length pool)%nat pool d).
    assert (Hin : In img pool).
    { apply nth_In. apply Nat.mod_upper_bound. discriminate. }
    destruct (IH (pool ++ [img])%list (S k)) as (extra & Hf & Hl & Hall).
    { destruct pool; discriminate. }
    exists (img :: extra). rewrite Hf. split; [| split].
    + rewrite <- app_assoc. cbn. do 2 f_equal. lia.
    + cbn. lia.
    + constructor; [exact Hin |].
      eapply Forall_impl; [| exact Hall]. intros a Ha. cbv beta in Ha |- *.
      apply in_app_or in Ha. destruct Ha as [Ha | [<- | []]]; assumption.
Qed.

Lemma alpha_composite_resized_l (im other : Image) :
  alpha_composite over (resize resample other (size im)) im
  = Ok (mkImage (width im) (height im)
          (fun x y => over (resample other (width im) (height im) x y)
                           (getpixel im x y))).
Proof.
  unfold alpha_composite, resize, size. cbn.
  now rewrite !Z.eqb_refl.
Qed.

Lemma alpha_composite_resized_r (im other : Image) :
  alpha_composite over im (resize resample other (size im))
  = Ok (mkImage (width im) (height im)
          (fun x y => over (getpixel im x y)
                           (resample other (width im) (height im) x y))).
Proof.
  unfold alpha_composite, resize, size. cbn.
  now rewrite !Z.eqb_refl.
Qed.


(** Without a colour the band flag changes nothing after the grid is
    assembled: the result is the watermark over the background-backed
    grid. *)
Lemma finish_without_color (canvas background watermark : Image)
      (png_count : Z) (include_band : bool) :
  finish' canvas background watermark png_count None include_band
  = (im <- alpha_composite over (resize resample background (size canvas))
             canvas ;;
     alpha_composite over im (resize resample watermark (size im))).
Proof. unfold finish', finish. now destruct include_band. Qed.


Lemma place_images_size (columns w h : Z) (placed : list Image) :
  forall canvas, size (place columns w h canvas placed) = size canvas.
Proof.
  unfold place, place_images. generalize (enumerate placed) as items.
  induction items as [| [idx img] items IH]; intros canvas; cbn;
    [reflexivity |].
  rewrite IH. unfold place_one.
  now destruct (paste_position columns w h idx img).
Qed.

(** The grid of a non-empty input with at least one loaded image. *)
Lemma assemble_grid_loaded (draws : nat -> nat)
      (input_paths : list string) (image_size : Z) (include_band : bool)
      (k : nat) :
  input_paths <> [] ->
  let n := Z.of_nat (List.length input_paths) in
  let columns := grid_columns n in
  let rows := grid_rows n columns in
  let w := cell_width image_size columns in
  let h := cell_height image_size rows include_band in
  let loaded := fst (load input_paths w h) in
  loaded <> [] ->
  exists extra,
    assemble_grid blend open_image thumbnail draws input_paths image_size
                  include_band k
    = (snd (load input_paths w h),
       Ok (place columns w h (Image_new image_size image_size)
                 (loaded ++ extra)%list),
       (k + List.length extra)%nat)
    /\ Forall (fun img => In img loaded) extra
    /\ Z.of_nat (List.length extra)
       = rows * columns - Z.of_nat (List.length loaded)
    /\ Z.of_nat (List.length (loaded ++ extra)%list) = rows * columns.
Proof.
  intros Hne n columns rows w h loaded Hl.
  assert (Hn : 0 < n) by (destruct input_paths; [congruence | cbn; lia]).
  assert (Hcap := grid_capacity n Hn). fold columns rows in Hcap.
  assert (Hlen := load_images_length input_paths w h). fold loaded in Hlen.
  set (missing := Z.to_nat (rows * columns - Z.of_nat (List.length loaded))).
  destruct (fill_grid_nonempty draws missing loaded k Hl)
    as (extra & Hf & Hx & Hall).
  exists extra. unfold assemble_grid. fold n columns rows w h.
  unfold loaded, load in *.
  destruct (load_images open_image thumbnail input_paths w h)
    as [imgs lg] eqn:E.
  cbn [fst snd] in *. fold missing. rewrite Hf.
  rewrite Hx. split; [reflexivity |]. split; [exact Hall |].
  rewrite length_app, Hx. unfold missing. split; lia.
Qed.


(** C4, what the code does.  When every path of a non-empty sequence
    fails to open, [merge_images] reaches the padding loop with an empty
    pool and the [IndexError] of [random.choice] leaves the function:
    nothing is written and no distinct condition is reported. *)
Theorem all_loads_failed_raises (draws : nat -> nat)
        (input_paths : list string) (image_size : Z)
        (background watermark : Image) (output_folder : string)
        (theme_color : option RGB) (include_band : bool) (k : nat) :
  input_paths <> [] ->
  (forall p, In p input_paths -> open_image p = None) ->
  merge_images blend over resample open_image thumbnail draw_band
               draws input_paths image_size background watermark
               output_folder theme_color include_band k
  = mkOutcome (map LoadFailed input_paths) [] k (Some IndexError).
Proof.
  intros Hne Hfail.
  set (n := Z.of_nat (List.length input_paths)).
  assert (Hn : 0 < n)
    by (destruct input_paths; [congruence | subst n; cbn; lia]).
  assert (Hcap := grid_capacity n Hn).
  unfold merge_images, assemble_grid.
  destruct input_paths as [| p ps]; [congruence |].
  fold n. fold load. rewrite load_images_all_fail by exact Hfail.
  rewrite fill_grid_empty by (cbn [List.length]; lia).
  reflexivity.
Qed.

(** C6. On the empty path sequence [merge_images] prints the "no images"
    line, writes nothing, takes no random draw and raises nothing; a
    folder without PNG files is thereby skipped by the loop over the
    folders, which goes on with the remaining folders. *)
Theorem empty_input_skipped (draws : nat -> nat)
        (glob_png : string -> list string)
        (folder : string) (rest : list string)
        (background watermark : Image) (output_folder : string)
        (theme_color : option RGB) (include_band : bool) (k : nat) :
  glob_png folder = [] ->
  (forall image_size,
      merge_images blend over resample open_image thumbnail draw_band
                   draws [] image_size background watermark
                   output_folder theme_color include_band k
      = mkOutcome [NoImagesFound] [] k None)
  /\ let run :=
       process_folders blend over resample open_image thumbnail
                       draw_band draws glob_png in
     let o := run rest background watermark output_folder theme_color
                  include_band k in
     run (folder :: rest) background watermark output_folder theme_color
         include_band k
     = mkOutcome (Processing folder :: NoImagesFound :: o_log o)
                 (o_saved o) (o_rng o) (o_exn o).
Proof.
  intros Hg. split; [reflexivity |].
  cbv zeta. cbn [process_folders]. rewrite Hg. reflexivity.
Qed.


(** C10. With the band flag set and no colour, on a non-empty input of
    which an image loads, [merge_images] raises nothing; the cells of
    its grid have the height reserved for a band (the smaller of the
    plain cell height and the one computed from the canvas less a fifth,
    the [int(image_size * 0.20)] of the source)
    and the grid is the one a run with a colour assembles; and the file
    written carries no band: each pixel is the watermark over the grid
    over the background. *)
Theorem band_flag_without_color (draws : nat -> nat)
        (input_paths : list string) (image_size : Z)
        (background watermark : Image) (output_folder : string) (k : nat) :
  input_paths <> [] ->
  let n := Z.of_nat (List.length input_paths) in
  let columns := grid_columns n in
  let rows := grid_rows n columns in
  let w := cell_width image_size columns in
  let h := cell_height image_size rows true in
  fst (load input_paths w h) <> [] ->
  exists (lg : list LogEntry) (canvas : Image) (k' : nat),
    h = Z.min (cell_height image_size rows false)
          ((image_size - int_fifth image_size - 2 * border_spacing
            - (rows - 1) * image_spacing) / rows)
    /\ (0 <= image_size < 2 ^ 31 ->
        int_fifth_double image_size = Ok (int_fifth image_size))
    /\ assemble_grid blend open_image thumbnail draws input_paths
                     image_size true k
       = (lg, Ok canvas, k')
    /\ (exists placed,
          canvas = place columns w h (Image_new image_size image_size)
                         placed)
    /\ merge_images blend over resample open_image thumbnail draw_band
                    draws input_paths image_size background watermark
                    output_folder None true k
       = mkOutcome lg
           [(output_folder, "final_output.png",
             mkImage image_size image_size
               (fun x y =>
                  over (over (resample background image_size image_size
                                       x y)
                             (getpixel canvas x y))
                       (resample watermark image_size image_size x y)))]
           k' None
    /\ (forall color,
          merge_images blend over resample open_image thumbnail draw_band
                       draws input_paths image_size background watermark
                       output_folder (Some color) true k
          = mkOutcome lg
              [(output_folder, "final_output.png",
                mkImage image_size image_size
                  (fun x y =>
                     over
                       (getpixel
                          (add_info_band blend draw_band
                             (mkImage image_size image_size
                                (fun x y =>
                                   over (resample background image_size
                                                  image_size x y)
                                        (getpixel canvas x y)))
                             (count_png input_paths) color) x y)
                       (resample watermark image_size image_size x y)))]
              k' None).
Proof.
  intros Hne n columns rows w h Hl.
  destruct (assemble_grid_loaded draws input_paths image_size true k
              Hne Hl) as (extra & Hg & _).
  fold n columns rows w h in Hg.
  eexists _, _, _. split; [reflexivity |].
  split; [apply int_fifth_double_exact |].
  split; [exact Hg |]. split; [eauto |].
  assert (Hsz := place_images_size columns w h
                   (fst (load input_paths w h) ++ extra)%list
                   (Image_new image_size image_size)).
  unfold size in Hsz. cbn [Image_new width height] in Hsz.
  injection Hsz as Hw Hh.
  split.
  - unfold merge_images. destruct input_paths as [| p ps]; [congruence |].
    rewrite Hg. cbn [bind]. fold finish'.
    rewrite finish_without_color, alpha_composite_resized_l.
    cbn [bind]. rewrite alpha_composite_resized_r.
    cbn [width height getpixel]. rewrite Hw, Hh. reflexivity.
  - intros color. unfold merge_images.
    destruct input_paths as [| p ps]; [congruence |].
    rewrite Hg. cbn [bind]. unfold finish.
    rewrite alpha_composite_resized_l. cbn [bind].
    rewrite alpha_composite_resized_r.
    cbn [width height getpixel]. rewrite Hw, Hh.
    unfold add_info_band, size. cbn [width height getpixel paste].
    reflexivity.
Qed.

End Facts.


Lemma all_loads_failed_raises_witness :
  Sample.merge ["bad.png"] 2000 (Sample.solid 10 10 (9, 9, 9, 255))
               (Sample.solid 10 10 transparent) "out" (Some (255, 0, 0))
               true 0%nat
  = mkOutcome [LoadFailed "bad.png"] [] 0%nat (Some IndexError).
Proof.
  apply (all_loads_failed_raises Sample.blend Sample.over Sample.resample
           Sample.open_image Sample.thumbnail Sample.draw_band
           Sample.draws ["bad.png"]).
  - discriminate.
  - intros p [<- | []]. reflexivity.
Defined.

Lemma empty_input_skipped_witness :
  o_saved (process_folders Sample.blend Sample.over Sample.resample
             Sample.open_image Sample.thumbnail Sample.draw_band
             Sample.draws Sample.glob_png ["empty"]
             (Sample.solid 10 10 (9, 9, 9, 255))
             (Sample.solid 10 10 transparent) "out" None false 0%nat)
  = [].
Proof.
  destruct (empty_input_skipped Sample.blend Sample.over Sample.resample
              Sample.open_image Sample.thumbnail Sample.draw_band
              Sample.draws Sample.glob_png "empty" []
              (Sample.solid 10 10 (9, 9, 9, 255))
              (Sample.solid 10 10 transparent) "out" None false 0%nat
              eq_refl) as [_ H].
  cbv zeta in H. rewrite H. reflexivity.
Defined.


Lemma band_flag_without_color_witness :
  exists final,
    Sample.merge ["a.png"] 2000 (Sample.solid 10 10 (9, 9, 9, 255))
                 (Sample.solid 10 10 transparent) "out" None true 0%nat
    = mkOutcome [] [("out", "final_output.png", final)] 1%nat None
    /\ cell_height 2000 1 true = 1580
    /\ cell_height 2000 1 false = 1980.
Proof.
  destruct (band_flag_without_color Sample.blend Sample.over
              Sample.resample Sample.open_image Sample.thumbnail
              Sample.draw_band Sample.draws ["a.png"] 2000
              (Sample.solid 10 10 (9, 9, 9, 255))
              (Sample.solid 10 10 transparent) "out" 0%nat)
    as (lg & canvas & k' & _ & _ & Hg & _ & Hm & _).
  - discriminate.
  - cbn. discriminate.
  - unfold Sample.merge. rewrite Hm.
    cbv in Hg. injection Hg as <- _ <-.
    eexists. split; [reflexivity |]. split; reflexivity.
Defined.

End ComposeFacts.

(** ** The colour parser *)

Module ColorFacts.
Import PyStr PyNum ColorParser StrFacts FloatFacts.

(** The sample conversions of the documentation. *)
Lemma parse_samples :
  parse_color_input "#1A2B3C" = Ok (Some (26, 43, 60))
  /\ parse_color_input "1a2b3c" = Ok (Some (26, 43, 60))
  /\ parse_color_input "rgb(255, 0, 0)" = Ok (Some (255, 0, 0))
  /\ parse_color_input "255,0,0" = Ok (Some (255, 0, 0))
  /\ parse_color_input "256,0,0" = Ok None
  /\ parse_color_input "cmyk(0, 100, 100, 0)" = Ok (Some (255, 0, 0)).
Proof. vm_compute. repeat split. Qed.

(** Every comma-separated input of four fields that carries no [cmyk]
    prefix, no [#] and no [rgb( )] wrapper is answered by the bare RGB
    branch, which rejects it for its field count: the bare CMYK branch
    after it is never reached with such an input. *)
Lemma bare_four_fields_invalid (s : string) :
  let text := lower (strip s) in
  startswith "#" text = false ->
  startswith "rgb(" text && endswith ")" text = false ->
  startswith "cmyk" text = false ->
  contains "," text = true ->
  List.length (split "," text) = 4%nat ->
  parse_color_input s = Ok None.
Proof.
  intros text Hh Hr Hc Hcomma Hlen.
  unfold parse_color_input, parse_color_branches. fold text.
  rewrite Hh, (comma_not_hex text Hcomma), andb_false_r. cbn [orb].
  rewrite Hr, Hcomma, Hc. cbn [negb andb].
  unfold rgb_of_fields. rewrite Hlen. reflexivity.
Qed.

(** C3, what the code does.  The bare CMYK text of the documentation,
    ["0,100,100,0"], is answered "invalid", while the same four values in
    a [cmyk( )] wrapper convert to red. *)
Theorem bare_cmyk_rejected :
  parse_color_input "0,100,100,0" = Ok None
  /\ parse_color_input "cmyk(0,100,100,0)" = Ok (Some (255, 0, 0))
  /\ parse_color_branches "0,100,100,0"
     = rgb_of_fields (split "," "0,100,100,0").
Proof. vm_compute. repeat split. Qed.

(** Only the first six characters after the leading [#] are read. *)
Lemma hex_to_rgb_ignores_tail (a b c d e f : ascii) (tail : string) :
  Ascii.eqb "#" a = false ->
  hex_to_rgb
    (String "#" (String a (String b (String c (String d (String e
       (String f tail)))))))
  = hex_to_rgb
      (String "#" (String a (String b (String c (String d (String e
         (String f EmptyString))))))).
Proof.
  intros H. unfold hex_to_rgb, lstrip_char. cbn [lstrip_if].
  rewrite H. reflexivity.
Qed.

(** C7, what the code does.  After a [#] the parser neither counts the
    digits nor looks beyond the sixth character: eight digits, six digits
    with trailing characters and five digits are all answered with a
    colour, while [validate_hex_color] rejects each of them.  Three
    digits are answered "invalid". *)
Theorem hash_wrong_length_accepted :
  parse_color_input "#11223344" = Ok (Some (17, 34, 51))
  /\ parse_color_input "#112233zz" = Ok (Some (17, 34, 51))
  /\ parse_color_input "#abcde" = Ok (Some (171, 205, 14))
  /\ parse_color_input "#abc" = Ok None
  /\ validate_hex_color "#11223344" = false
  /\ validate_hex_color "#112233zz" = false
  /\ validate_hex_color "#abcde" = false
  /\ validate_hex_color "#112233" = true.
Proof. vm_compute. repeat split. Qed.

Lemma decimal_to_float_fits (neg : bool) (m : positive) (e : Z) :
  mantissa_fits (decimal_to_float neg m e).
Proof.
  unfold decimal_to_float, fdiv, prec, emax.
  destruct e; try apply normalize_fits. apply div_fits.
Qed.

(** [float] returns mantissas of at most 53 bits. *)
Lemma float_of_string_fits (s : string) (x : float) :
  float_of_string s = Ok x -> mantissa_fits x.
Proof.
  unfold float_of_string.
  repeat match goal with
    | |- context [let '(_, _) := ?t in _] => destruct t
    | |- context [match ?t with _ => _ end] =>
        lazymatch t with
        | context [match _ with _ => _ end] => fail
        | _ => destruct t
        end
    | |- context [if ?t then _ else _] => destruct t
    end;
    intros H; try discriminate H; injection H as <-;
    try exact I; apply decimal_to_float_fits.
Qed.

(** A percentage: a zero or a positive float of magnitude below [2 ^ 7]. *)
Lemma percent_below (v : float) :
  mantissa_fits v -> in_percent_range v = true -> below 7 v.
Proof.
  intros Hf H. unfold in_percent_range, fleb in H.
  apply andb_true_iff in H. destruct H as [H0 H100].
  change (float_of_Z 0) with (S754_zero false) in H0.
  change (float_of_Z 100)
    with (S754_finite false 7036874417766400 (-46)) in H100.
  destruct v as [sv | sv | | sv mv ev]; cbn [below].
  - exact I.
  - destruct sv; discriminate.
  - discriminate.
  - cbn [mantissa_fits] in Hf. split; [exact Hf |].
    destruct sv; [discriminate |].
    unfold SFleb, SFcompare in H100.
    destruct (Z.compare_spec ev (-46)); try discriminate; lia.
Qed.

(** One channel of the conversion stays finite. *)
Lemma channel_below (v k : float) :
  below 7 v -> below 7 k ->
  below 18
    (fmul (fmul (float_of_Z 255)
                (fsub (float_of_Z 1) (fdiv v (float_of_Z 100))))
          (fsub (float_of_Z 1) (fdiv k (float_of_Z 100)))).
Proof.
  intros Hv Hk.
  change (float_of_Z 100) with (S754_finite false 7036874417766400 (-46)).
  assert (H1 : below 1 (float_of_Z 1)) by (vm_compute; split; discriminate).
  assert (H255 : below 8 (float_of_Z 255))
    by (vm_compute; split; discriminate).
  assert (D : forall u, below 7 u ->
                below 4 (fsub (float_of_Z 1)
                           (fdiv u (S754_finite false 7036874417766400
                                      (-46))))).
  { intros u Hu.
    apply (sub_below 1 2); [exact H1 | | lia].
    apply (div_below 7 7); [exact Hu | vm_compute; discriminate | lia]. }
  apply (mul_below 13 4); [| apply D; exact Hk | lia].
  apply (mul_below 8 4); [exact H255 | apply D; exact Hv | lia].
Qed.

Lemma int_of_float_below (B : Z) (x : float) :
  below B x -> exists z, int_of_float x = Ok z.
Proof. destruct x; cbn; intros H; try contradiction; eauto. Qed.

(** The in-range conversion never raises. *)
Lemma cmyk_to_rgb_ok (c m y k : float) :
  below 7 c -> below 7 m -> below 7 y -> below 7 k ->
  let channel v :=
    fmul (fmul (float_of_Z 255)
               (fsub (float_of_Z 1) (fdiv v (float_of_Z 100))))
         (fsub (float_of_Z 1) (fdiv k (float_of_Z 100))) in
  exists r g b,
    int_of_float (channel c) = Ok r
    /\ int_of_float (channel m) = Ok g
    /\ int_of_float (channel y) = Ok b
    /\ cmyk_to_rgb c m y k = Ok (r, g, b).
Proof.
  intros Hc Hm Hy Hk channel.
  destruct (int_of_float_below 18 _ (channel_below c k Hc Hk)) as [r Hr].
  destruct (int_of_float_below 18 _ (channel_below m k Hm Hk)) as [g Hg].
  destruct (int_of_float_below 18 _ (channel_below y k Hy Hk)) as [b Hb].
  exists r, g, b. unfold channel, cmyk_to_rgb.
  cbv zeta. rewrite Hr, Hg, Hb. auto.
Qed.

(** C8. For a text that, trimmed and lower-cased, reads
    [cmyk(f1,f2,f3,f4)] with fields that [float] reads as [c], [m], [y],
    [k] in [0, 100], the parser raises nothing and returns the triple of
    [int(255 * (1 - c/100) * (1 - k/100))], the same with [m] and with
    [y], the arithmetic being the binary64 arithmetic of the code and
    [int] truncation toward zero.  [cmyk(0,0,0,0)] gives (255,255,255)
    and [cmyk(0,0,0,100)] gives (0,0,0). *)
Theorem cmyk_wrapped_converted (s f1 f2 f3 f4 : string) (c m y k : float) :
  lower (strip s)
  = ("cmyk(" ++ f1 ++ "," ++ f2 ++ "," ++ f3 ++ "," ++ f4 ++ ")")%string ->
  contains "," f1 = false -> contains "," f2 = false ->
  contains "," f3 = false -> contains "," f4 = false ->
  float_of_string (strip f1) = Ok c -> float_of_string (strip f2) = Ok m ->
  float_of_string (strip f3) = Ok y -> float_of_string (strip f4) = Ok k ->
  in_percent_range c = true -> in_percent_range m = true ->
  in_percent_range y = true -> in_percent_range k = true ->
  let channel v :=
    fmul (fmul (float_of_Z 255)
               (fsub (float_of_Z 1) (fdiv v (float_of_Z 100))))
         (fsub (float_of_Z 1) (fdiv k (float_of_Z 100))) in
  exists r g b,
    int_of_float (channel c) = Ok r
    /\ int_of_float (channel m) = Ok g
    /\ int_of_float (channel y) = Ok b
    /\ parse_color_input s = Ok (Some (r, g, b))
    /\ parse_color_input "cmyk(0,0,0,0)" = Ok (Some (255, 255, 255))
    /\ parse_color_input "cmyk(0,0,0,100)" = Ok (Some (0, 0, 0)).
Proof.
  intros Htext N1 N2 N3 N4 P1 P2 P3 P4 R1 R2 R3 R4 channel.
  assert (Bc := percent_below c (float_of_string_fits _ _ P1) R1).
  assert (Bm := percent_below m (float_of_string_fits _ _ P2) R2).
  assert (By := percent_below y (float_of_string_fits _ _ P3) R3).
  assert (Bk := percent_below k (float_of_string_fits _ _ P4) R4).
  destruct (cmyk_to_rgb_ok c m y k Bc Bm By Bk)
    as (r & g & b & Hr & Hg & Hb & Hrgb).
  exists r, g, b. repeat split; try assumption.
  unfold parse_color_input. rewrite Htext.
  set (body := (f1 ++ "," ++ f2 ++ "," ++ f3 ++ "," ++ f4)%string).
  assert (E : (f1 ++ "," ++ f2 ++ "," ++ f3 ++ "," ++ f4 ++ ")")%string
              = (body ++ ")")%string).
  { unfold body. now rewrite <- !append_assoc. }
  rewrite E.
  assert (Hend : endswith ")" ("cmyk(" ++ body ++ ")") = true).
  { rewrite append_assoc. apply endswith_app_char. }
  assert (Hsplit : split "," body = [f1; f2; f3; f4]).
  { unfold body. cbn [append].
    rewrite (split_app "," f1 _ N1), (split_app "," f2 _ N2),
      (split_app "," f3 _ N3), (split_no_sep "," f4 N4). reflexivity. }
  unfold parse_color_branches.
  change (startswith "#" ("cmyk(" ++ body ++ ")")) with false.
  change (all_chars is_lower_hex ("cmyk(" ++ body ++ ")")) with false.
  rewrite andb_false_r. cbn [orb].
  change (startswith "rgb(" ("cmyk(" ++ body ++ ")")) with false.
  cbn [andb].
  change (startswith "cmyk" ("cmyk(" ++ body ++ ")")) with true.
  cbn [negb]. rewrite andb_false_r.
  change (startswith "cmyk(" ("cmyk(" ++ body ++ ")")) with true.
  rewrite Hend. cbn [andb].
  change (slice_to_last 5 ("cmyk(" ++ body ++ ")"))
    with (drop_last (body ++ ")")).
  rewrite drop_last_app, Hsplit.
  unfold cmyk_of_fields. cbn [List.length Nat.eqb mapM].
  rewrite P1, P2, P3, P4. cbn [bind forallb].
  rewrite R1, R2, R3, R4. cbn [andb]. rewrite Hrgb. reflexivity.
Qed.

Lemma cmyk_wrapped_converted_witness :
  parse_color_input " CMYK( 0 , 50.5 , 1E1 , 0 ) "
  = Ok (Some (255, 126, 229)).
Proof.
  edestruct (cmyk_wrapped_converted " CMYK( 0 , 50.5 , 1E1 , 0 ) "
               " 0 " " 50.5 " " 1e1 " " 0 ")
    as (r & g & b & Hr & Hg & Hb & Hp & _);
    [vm_compute; reflexivity .. |].
  vm_compute in Hr, Hg, Hb.
  injection Hr as <-. injection Hg as <-. injection Hb as <-.
  exact Hp.
Defined.

(** The conversion is carried out in binary64: for 80 percent cyan the
    double product is just below 51 and truncates to 50, where the exact
    value of [255 * (1 - 80/100) * (1 - 0/100)] is 51. *)
Remark cmyk_double_rounding :
  parse_color_input "cmyk(80,0,0,0)" = Ok (Some (50, 255, 255))
  /\ 255 * (100 - 80) * (100 - 0) / (100 * 100) = 51.
Proof. vm_compute. split; reflexivity. Qed.

End ColorFacts.
